(** * Squishy: the configuration loader and the UI routes, embedded in Rocq

    The development follows the Python sources:
    - [Py]       the values and exceptions of the Python code;
    - [Cfg]      [squishy/config.py]: [Config], [load_config];
    - [Engine]   the transcode engine the routes call ([squishy/transcoder.py],
                 [squishy/completed.py]), whose text is not among the sources;
    - [Ui]       [squishy/blueprints/ui.py]: the route handlers;
    - [CfgSave]  [squishy/config.py]: [save_config];
    - [App]      [squishy/app.py]: [perform_initial_scan], [check_first_run];
    - [UiMore]   [squishy/blueprints/ui.py]: the detail and episode routes;
    - [CfgPath]  [squishy/config.py]: [load_config] with its path and the
                 directory of the path. *)

From Stdlib Require Import String Ascii ZArith QArith List Bool Lia Permutation.
From Stdlib Require Import Floats.SpecFloat.
Import ListNotations.

Set Warnings "-register-all".

Local Open Scope string_scope.
Local Open Scope Z_scope.

(* ===================================================================== *)
(** ** Python values *)
(* ===================================================================== *)

Module Py.

(** What [json.load] produces: [None], [bool], [int], [float], [str],
    [list] and [dict] with string keys.  A dict keeps insertion order, so it
    is an association list; lookups take the first binding of a key. *)
Inductive pyval : Type :=
| PyNone
| PyBool (b : bool)
| PyInt (n : Z)
| PyFloat (f : spec_float)
| PyStr (s : string)
| PyList (l : list pyval)
| PyDict (d : list (string * pyval)).

Definition pydict : Type := list (string * pyval).

(** The exceptions the modelled code can raise. *)
Inductive exn : Type :=
| TypeError
| KeyError
| IndexError
| JSONDecodeError
| ZeroDivisionError
| OSError
| BadRequestKeyError
| BuildError.

(** A computation that returns or raises. *)
Inductive result (A : Type) : Type :=
| Ok (a : A)
| Raise (e : exn).

Arguments Ok {A} a.
Arguments Raise {A} e.

Definition bind {A B : Type} (m : result A) (k : A -> result B) : result B :=
  match m with
  | Ok a => k a
  | Raise e => Raise e
  end.

(** [bool(v)]: the truth value Python's [not], [and], [or], [if] use. *)
Definition truthy (v : pyval) : bool :=
  match v with
  | PyNone => false
  | PyBool b => b
  | PyInt n => negb (n =? 0)
  | PyFloat (S754_zero _) => false
  | PyFloat _ => true
  | PyStr s => negb (s =? "")%string
  | PyList [] => false
  | PyList (_ :: _) => true
  | PyDict [] => false
  | PyDict (_ :: _) => true
  end.

(** [a or b]. *)
Definition py_or (a b : pyval) : pyval := if truthy a then a else b.

(** [a and b]. *)
Definition py_and (a b : pyval) : pyval := if truthy a then b else a.

(** [d.get(k)] as an option; [None] when the key is absent. *)
Fixpoint lookup (d : pydict) (k : string) : option pyval :=
  match d with
  | [] => None
  | (k', v) :: d' => if (k' =? k)%string then Some v else lookup d' k
  end.

(** [k in d]. *)
Definition contains (d : pydict) (k : string) : bool :=
  match lookup d k with
  | Some _ => true
  | None => false
  end.

(** [d.get(k, default)]. *)
Definition get_or (d : pydict) (k : string) (default : pyval) : pyval :=
  match lookup d k with
  | Some v => v
  | None => default
  end.

(** [d.get(k)]: the default is [None]. *)
Definition get (d : pydict) (k : string) : pyval := get_or d k PyNone.

(** [d[k]]. *)
Definition getitem (d : pydict) (k : string) : result pyval :=
  match lookup d k with
  | Some v => Ok v
  | None => Raise KeyError
  end.

(** [d[k] = v]: an existing key keeps its place, a new one goes last. *)
Fixpoint setitem (d : pydict) (k : string) (v : pyval) : pydict :=
  match d with
  | [] => [(k, v)]
  | (k', v') :: d' =>
      if (k' =? k)%string then (k, v) :: d' else (k', v') :: setitem d' k v
  end.

(** [v[0]].  The keys of a dict read from JSON are strings, so the integer
    [0] is never among them. *)
Definition subscript0 (v : pyval) : result pyval :=
  match v with
  | PyList (x :: _) => Ok x
  | PyList [] => Raise IndexError
  | PyStr (String c _) => Ok (PyStr (String c ""))
  | PyStr EmptyString => Raise IndexError
  | PyDict _ => Raise KeyError
  | PyNone | PyBool _ | PyInt _ | PyFloat _ => Raise TypeError
  end.

(** [strip_prefix pre s] is [Some rest] when [s = pre ++ rest], the test
    [s.startswith(pre)] together with what follows the prefix. *)
Fixpoint strip_prefix (pre s : string) : option string :=
  match pre, s with
  | EmptyString, _ => Some s
  | String a pre', String b s' =>
      if Ascii.eqb a b then strip_prefix pre' s' else None
  | String _ _, EmptyString => None
  end.

(** [s.startswith(pre)]. *)
Definition startswith (s pre : string) : bool :=
  match strip_prefix pre s with
  | Some _ => true
  | None => false
  end.

(** [needle in v], for a string [needle]: a key of a dict, an element of a
    list, a substring of a string; other values are not containers. *)
Definition py_in (needle : string) (v : pyval) : result bool :=
  match v with
  | PyDict d => Ok (contains d needle)
  | PyList l =>
      Ok (existsb (fun x => match x with
                            | PyStr s => (s =? needle)%string
                            | _ => false
                            end) l)
  | PyStr s =>
      Ok (match index 0 needle s with Some _ => true | None => false end)
  | PyNone | PyBool _ | PyInt _ | PyFloat _ => Raise TypeError
  end.

(** [a / b] on integers: true division, exact here where Python rounds to
    a float. *)
Definition truediv (a b : Z) : result Q :=
  if b =? 0 then Raise ZeroDivisionError
  else Ok (inject_Z a / inject_Z b)%Q.

End Py.

Import Py.

Notation "x <- m ;; k" := (Py.bind m (fun x => k))
  (at level 61, m at next level, right associativity).

(* ===================================================================== *)
(** ** squishy/config.py *)
(* ===================================================================== *)

Module Cfg.

(** [class Config]: a dataclass, whose fields Python does not type-check, so
    each holds whatever value the document gave. *)
Record Config : Type := mkConfig {
  media_path : pyval;
  transcode_path : pyval;
  ffmpeg_path : pyval;
  ffprobe_path : pyval;
  jellyfin_url : pyval;
  jellyfin_api_key : pyval;
  plex_url : pyval;
  plex_token : pyval;
  path_mappings : pyval;
  presets : pyval;
  max_concurrent_jobs : pyval;
  hw_accel : pyval;
  hw_device : pyval;
  hw_capabilities : pyval;
  enabled_libraries : pyval;
  log_level : pyval
}.

(** [x if x is not None else {}]. *)
Definition none_to_empty (v : pyval) : pyval :=
  match v with
  | PyNone => PyDict []
  | _ => v
  end.

(** [Config.__post_init__]. *)
Definition post_init (c : Config) : Config :=
  {| media_path := media_path c;
     transcode_path := transcode_path c;
     ffmpeg_path := ffmpeg_path c;
     ffprobe_path := ffprobe_path c;
     jellyfin_url := jellyfin_url c;
     jellyfin_api_key := jellyfin_api_key c;
     plex_url := plex_url c;
     plex_token := plex_token c;
     path_mappings := none_to_empty (path_mappings c);
     presets := none_to_empty (presets c);
     max_concurrent_jobs := max_concurrent_jobs c;
     hw_accel := hw_accel c;
     hw_device := hw_device c;
     hw_capabilities := hw_capabilities c;
     enabled_libraries := none_to_empty (enabled_libraries c);
     log_level := log_level c |}.

(** One entry of [default_presets]. *)
Definition preset (scale audio_bitrate : string) (crf : Z) : pyval :=
  PyDict [ ("codec", PyStr "hevc");
           ("scale", PyStr scale);
           ("container", PyStr ".mkv");
           ("audio_codec", PyStr "aac");
           ("audio_bitrate", PyStr audio_bitrate);
           ("crf", PyInt crf);
           ("allow_fallback", PyBool true) ].

Definition default_presets : pyval :=
  PyDict [ ("high", preset "1080p" "192k" 20);
           ("medium", preset "720p" "128k" 24);
           ("low", preset "480p" "96k" 28) ].

Definition default_config : pydict :=
  [ ("media_path", PyStr "/media");
    ("transcode_path", PyStr "/transcodes");
    ("ffmpeg_path", PyStr "/usr/bin/ffmpeg");
    ("ffprobe_path", PyStr "/usr/bin/ffprobe");
    ("path_mappings", PyDict []);
    ("presets", default_presets);
    ("jellyfin_url", PyStr "");
    ("jellyfin_api_key", PyStr "") ].

(** What [load_config] finds at [config_path]: no file, a file that
    [json.load] rejects, or a file holding a JSON document. *)
Inductive config_file : Type :=
| FileAbsent
| FileMalformed
| FileJson (doc : pyval).

(** Lines 95-112: [config_data] after the file has been read.  Only a dict
    gets through the [presets] test: on a number, a bool or [None] the [in]
    raises [TypeError]; on a list or a string either the subscript
    [config_data["presets"]] or the assignment to it does. *)
Definition read_config_data (f : config_file) : result pydict :=
  match f with
  | FileAbsent => Ok default_config
  | FileMalformed => Raise JSONDecodeError
  | FileJson (PyDict d) =>
      if negb (contains d "presets") || negb (truthy (get d "presets"))
      then Ok (setitem d "presets" default_presets)
      else Ok d
  | FileJson _ => Raise TypeError
  end.

(** Lines 126-128: the migration from [media_paths] to [media_path]. *)
Definition migrate_media_path (config_data : pydict) : result pyval :=
  let media_path := get config_data "media_path" in
  if negb (truthy media_path)
     && contains config_data "media_paths"
     && truthy (get config_data "media_paths")
  then subscript0 (get config_data "media_paths")
  else Ok media_path.

(** [load_config] from line 51 on, given what lines 95-105 find at
    [config_path]: what it returns, or raises, once the directory of the
    path is there.  The first lines, which resolve the path and make sure of
    its directory, are in [CfgPath.load_config] below.  The warnings it logs
    are left out. *)
Definition load_config (f : config_file) : result Config :=
  config_data <- read_config_data f ;;
  media_path <- migrate_media_path config_data ;;
  let path_mappings := get_or config_data "path_mappings" (PyDict []) in
  let enabled_libraries := get_or config_data "enabled_libraries" (PyDict []) in
  let presets := get_or config_data "presets" default_presets in
  Ok (post_init
    {| media_path := py_or media_path (PyStr "/media");
       transcode_path := get_or config_data "transcode_path" (PyStr "/transcodes");
       ffmpeg_path := get_or config_data "ffmpeg_path" (PyStr "/usr/bin/ffmpeg");
       ffprobe_path := get_or config_data "ffprobe_path" (PyStr "/usr/bin/ffprobe");
       jellyfin_url := get config_data "jellyfin_url";
       jellyfin_api_key := get config_data "jellyfin_api_key";
       plex_url := get config_data "plex_url";
       plex_token := get config_data "plex_token";
       path_mappings := path_mappings;
       presets := presets;
       max_concurrent_jobs := get_or config_data "max_concurrent_jobs" (PyInt 1);
       hw_accel := get config_data "hw_accel";
       hw_device := get config_data "hw_device";
       hw_capabilities := get config_data "hw_capabilities";
       enabled_libraries := enabled_libraries;
       log_level := get_or config_data "log_level" (PyStr "INFO") |}).

(** [v] is an integer that is at least 1. *)
Definition at_least_one (v : pyval) : bool :=
  match v with
  | PyInt n => 1 <=? n
  | _ => false
  end.

(** The document of a config file that defines no presets: an object whose
    [presets] entry is missing or falsy. *)
Definition defines_no_presets (d : pydict) : bool :=
  negb (contains d "presets") || negb (truthy (get d "presets")).

(** The migration from [media_paths] does not raise: [media_path] is set,
    or [media_paths] is missing or falsy, or it is a list or a string. *)
Definition migration_succeeds (d : pydict) : bool :=
  truthy (get d "media_path")
  || negb (contains d "media_paths")
  || negb (truthy (get d "media_paths"))
  || match get d "media_paths" with
     | PyList _ | PyStr _ => true
     | _ => false
     end.

(** The value an entry of a preset has in a [presets] dict. *)
Definition preset_entry (ps : pyval) (name field : string) : option pyval :=
  match ps with
  | PyDict d =>
      match lookup d name with
      | Some (PyDict p) => lookup p field
      | _ => None
      end
  | _ => None
  end.

(** The names of the presets, in order. *)
Definition preset_names (ps : pyval) : list string :=
  match ps with
  | PyDict d => map fst d
  | _ => []
  end.

End Cfg.

(* ===================================================================== *)
(** ** The transcode engine, as the design describes it *)
(* ===================================================================== *)

Module Engine.

(** *** Path Mapper *)

(** Modelled from the spec: the Path Mapper's [map] (section 4.5), the body
    of [apply_output_path_mapping] in the absent [squishy/transcoder.py].
    The ordered table is scanned for the first entry whose source prefix the
    path starts with; that prefix is replaced by the entry's destination
    prefix; a path no entry matches is returned unchanged. *)
Fixpoint map_path (table : list (string * string)) (path : string) : string :=
  match table with
  | [] => path
  | (src, dst) :: table' =>
      match strip_prefix src path with
      | Some rest => dst ++ rest
      | None => map_path table' path
      end
  end.

(** The first entry of the table whose source prefix matches [path]. *)
Fixpoint first_match (table : list (string * string)) (path : string)
  : option (string * string) :=
  match table with
  | [] => None
  | (src, dst) :: table' =>
      if startswith path src then Some (src, dst) else first_match table' path
  end.

(** No source prefix of the table matches [path]. *)
Definition unmatched (table : list (string * string)) (path : string) : bool :=
  forallb (fun e => negb (startswith path (fst e))) table.

(** [a] and [b] overlap: one is a prefix of the other. *)
Definition overlap (a b : string) : bool := startswith a b || startswith b a.

(** *** Job Registry and Scheduler *)

(** Modelled from the spec: the [Job] record of section 3, which
    [squishy/transcoder.py] declares.  The status is one of the strings
    ["pending"], ["processing"], ["completed"], ["failed"], ["cancelled"];
    the three timestamps are left out, no claim reads them. *)
Record Job : Type := mkJob {
  id : string;
  media_id : string;
  preset_name : string;
  status : string;
  output_path : option string;
  error : option string
}.

Definition with_status (j : Job) (st : string) (out err : option string) : Job :=
  {| id := id j; media_id := media_id j; preset_name := preset_name j;
     status := st; output_path := out; error := err |}.

Definition is_processing (j : Job) : bool := (status j =? "processing")%string.

Definition is_terminal (st : string) : bool :=
  (st =? "completed")%string || (st =? "failed")%string
  || (st =? "cancelled")%string.

(** The registry is keyed by job identifier; like a dict it holds one
    binding per key, in insertion order. *)
Fixpoint find_job (reg : list Job) (i : string) : option Job :=
  match reg with
  | [] => None
  | j :: reg' => if (id j =? i)%string then Some j else find_job reg' i
  end.

Fixpoint update_job (reg : list Job) (i : string) (f : Job -> Job) : list Job :=
  match reg with
  | [] => []
  | j :: reg' =>
      if (id j =? i)%string then f j :: reg' else j :: update_job reg' i f
  end.

Fixpoint delete_job (reg : list Job) (i : string) : list Job :=
  match reg with
  | [] => []
  | j :: reg' => if (id j =? i)%string then reg' else j :: delete_job reg' i
  end.

(** The number of jobs whose status is ["processing"]. *)
Definition processing_count (reg : list Job) : nat :=
  length (filter is_processing reg).

(** How a Worker's job ended. *)
Inductive outcome : Type :=
| Completed (output : string)
| Failed (diagnostic : string)
| Cancelled.

(** Modelled from the spec: the Scheduler of section 4.3 over the Job
    Registry of section 4.2, which [squishy/transcoder.py] implements: the
    ceiling, the registry, the FIFO queue of pending identifiers and the count
    of jobs currently processing. *)
Record sched : Type := mkSched {
  max_concurrent_jobs : nat;
  registry : list Job;
  queue : list string;
  running : nat
}.

Definition init (ceiling : nat) : sched :=
  {| max_concurrent_jobs := ceiling; registry := []; queue := []; running := 0 |}.

(** [create_job]: a new job, pending, under an identifier not yet in use. *)
Definition create_job (i media preset : string) (s : sched) : sched :=
  match find_job (registry s) i with
  | Some _ => s
  | None =>
      {| max_concurrent_jobs := max_concurrent_jobs s;
         registry := registry s ++ [mkJob i media preset "pending" None None];
         queue := queue s;
         running := running s |}
  end.

(** [start_transcode]: the pending job joins the tail of the queue. *)
Definition start_transcode (i : string) (s : sched) : sched :=
  match find_job (registry s) i with
  | Some j =>
      if (status j =? "pending")%string
      then {| max_concurrent_jobs := max_concurrent_jobs s;
              registry := registry s;
              queue := queue s ++ [i];
              running := running s |}
      else s
  | None => s
  end.

(** Admission: when the count is below the ceiling and the queue is not
    empty, its head is dequeued and, being pending, becomes processing. *)
Definition admission (s : sched) : sched :=
  match queue s with
  | [] => s
  | i :: q =>
      if (running s <? max_concurrent_jobs s)%nat
      then match find_job (registry s) i with
           | Some j =>
               if (status j =? "pending")%string
               then {| max_concurrent_jobs := max_concurrent_jobs s;
                       registry := update_job (registry s) i
                                     (fun j => with_status j "processing" None None);
                       queue := q;
                       running := S (running s) |}
               else {| max_concurrent_jobs := max_concurrent_jobs s;
                       registry := registry s; queue := q; running := running s |}
           | None =>
               {| max_concurrent_jobs := max_concurrent_jobs s;
                  registry := registry s; queue := q; running := running s |}
           end
      else s
  end.

Definition finished (j : Job) (o : outcome) : Job :=
  match o with
  | Completed out => with_status j "completed" (Some out) None
  | Failed msg => with_status j "failed" None (Some msg)
  | Cancelled => with_status j "cancelled" None None
  end.

(** A Worker reports the terminal status of the job it owns: the job leaves
    ["processing"] and the count goes down by one. *)
Definition finish (i : string) (o : outcome) (s : sched) : sched :=
  match find_job (registry s) i with
  | Some j =>
      if is_processing j
      then {| max_concurrent_jobs := max_concurrent_jobs s;
              registry := update_job (registry s) i (fun j => finished j o);
              queue := queue s;
              running := pred (running s) |}
      else s
  | None => s
  end.

(** [cancel_job]: a pending job becomes cancelled and leaves the queue; for
    a processing job the request is a signal to its Worker, which remains
    the one to report [Cancelled] through [finish]; a terminal or unknown
    job is left alone and the answer is [false]. *)
Definition cancel_job (i : string) (s : sched) : bool * sched :=
  match find_job (registry s) i with
  | Some j =>
      if (status j =? "pending")%string
      then (true,
            {| max_concurrent_jobs := max_concurrent_jobs s;
               registry := update_job (registry s) i
                             (fun j => with_status j "cancelled" None None);
               queue := filter (fun k => negb (k =? i)%string) (queue s);
               running := running s |})
      else if is_processing j then (true, s)
      else (false, s)
  | None => (false, s)
  end.

(** [remove_job]: only a job in a terminal state is deleted. *)
Definition remove_job (i : string) (s : sched) : bool * sched :=
  match find_job (registry s) i with
  | Some j =>
      if is_terminal (status j)
      then (true,
            {| max_concurrent_jobs := max_concurrent_jobs s;
               registry := delete_job (registry s) i;
               queue := queue s;
               running := running s |})
      else (false, s)
  | None => (false, s)
  end.

(** What can happen to the engine, in any order: the calls of the
    presentation layer, an admission by the Scheduler, a report by a Worker. *)
Inductive event : Type :=
| Create (i media preset : string)
| Start (i : string)
| Admission
| Finish (i : string) (o : outcome)
| Cancel (i : string)
| Remove (i : string).

Definition step (s : sched) (e : event) : sched :=
  match e with
  | Create i media preset => create_job i media preset s
  | Start i => start_transcode i s
  | Admission => admission s
  | Finish i o => finish i o s
  | Cancel i => snd (cancel_job i s)
  | Remove i => snd (remove_job i s)
  end.

(** The state after a sequence of events, each taking effect atomically. *)
Definition run (es : list event) (s : sched) : sched := fold_left step es s.

(** Every state the engine passes through on the way. *)
Fixpoint trace (es : list event) (s : sched) : list sched :=
  match es with
  | [] => [s]
  | e :: es' => s :: trace es' (step s e)
  end.

(** What a job adds to the count of processing jobs. *)
Definition weight (j : Job) : nat := if is_processing j then 1%nat else 0%nat.

(** What the Scheduler maintains: its count is the number of processing
    jobs of the registry, and is within the ceiling. *)
Definition accounted (s : sched) : Prop :=
  processing_count (registry s) = running s /\
  (running s <= max_concurrent_jobs s)%nat.

(** *** Completed Transcode Store *)

(** Modelled from the spec: what lies under the transcode root (section
    4.6): the artifacts by filename, the filenames that have a sidecar
    metadata record, and the artifacts the filesystem refuses to remove. *)
Record store : Type := mkStore {
  artifacts : list string;
  sidecars : list string;
  locked : list string
}.

Definition mem (x : string) (l : list string) : bool :=
  existsb (fun y => (y =? x)%string) l.

Definition without (x : string) (l : list string) : list string :=
  filter (fun y => negb (y =? x)%string) l.

(** Modelled from the spec: [delete(filename) -> (success, message)] of
    section 4.6, the body of [delete_transcode] in the absent
    [squishy/completed.py].  It fails with a message when the file does not
    exist or cannot be removed, and otherwise removes the file and its
    metadata record; a file without a record is removed all the same and
    reported distinctly.  The spec fixes no wording: each message names its
    outcome. *)
Definition delete_transcode (filename : string) (st : store)
  : (bool * string) * store :=
  if negb (mem filename (artifacts st))
  then ((false, "File not found: " ++ filename), st)
  else if mem filename (locked st)
  then ((false, "Could not remove file: " ++ filename), st)
  else
    let st' := {| artifacts := without filename (artifacts st);
                  sidecars := without filename (sidecars st);
                  locked := locked st |} in
    if mem filename (sidecars st)
    then ((true, "Removed " ++ filename ++ " and its metadata"), st')
    else ((true, "Removed " ++ filename ++ " (no metadata found)"), st').

End Engine.

(* ===================================================================== *)
(** ** squishy/blueprints/ui.py *)
(* ===================================================================== *)

Module Ui.

Abbreviation Job := Engine.Job.

(** Modelled from the spec: the [MediaItem] the catalog hands out (section
    6), declared in the absent [squishy/scanner.py]: its [path], its [type]
    (["movie"] or ["episode"]), its [display_name] and its [show_id], which
    a movie does not have. *)
Record MediaItem : Type := mkMedia {
  path : string;
  type : string;
  display_name : string;
  show_id : option string
}.

(** Modelled from the spec: a [Show] of the catalog; the routes read its
    [title]. *)
Record Show : Type := mkShow { title : string }.

(** Modelled from the spec: a completed-transcode record as
    [get_completed_transcodes] lists it (section 3), a dict of strings: the
    routes read its ["original_path"], ["file_path"] and ["output_size"]. *)
Definition transcode_record : Type := list (string * string).

(** [bool(x)] for an [Optional[str]]. *)
Definition nonempty (x : option string) : bool :=
  match x with
  | Some s => negb (s =? "")%string
  | None => false
  end.

(** *** Sizes as the pages show them *)

(** The text [format_file_size] returns, ["{round(x, 2)} KB"] and the like,
    kept as the unit and the quotient [x] before rounding. *)
Inductive human_size : Type :=
| KB (x : Q)
| MB (x : Q)
| GB (x : Q).

Definition format_file_size (bytes_size : Z) : human_size :=
  if bytes_size <? 1024 * 1024
  then KB (inject_Z bytes_size / inject_Z 1024)%Q
  else if bytes_size <? 1024 * 1024 * 1024
  then MB (inject_Z bytes_size / inject_Z (1024 * 1024))%Q
  else GB (inject_Z bytes_size / inject_Z (1024 * 1024 * 1024))%Q.

(** The texts of the [file_size] and [size_comparison] entries. *)
Inductive size_text : Type :=
| Plain (size : human_size)
| Smaller (original output : human_size) (compression_pct : Q)
| Text (s : string).

(** [100 - (output_size_bytes / file_size_bytes * 100)]. *)
Definition compression_pct (output_size_bytes file_size_bytes : Z) : result Q :=
  ratio <- truediv output_size_bytes file_size_bytes ;;
  Ok (inject_Z 100 - ratio * inject_Z 100)%Q.

(** One entry [job_data] of the jobs page. *)
Record job_data : Type := mkJobData {
  job : Job;
  media_title : string;
  file_size : size_text
}.

(** What a route returns.  [Redirect e args] is
    [redirect(url_for(e, **args))]; the two pages are
    [render_template] with their context. *)
Inductive response : Type :=
| Redirect (endpoint : string) (args : list (string * option string))
| SendFile (file_path : string) (as_attachment : bool)
| JobsPage (active_jobs completed_jobs failed_jobs : list job_data)
| CompletedPage (transcodes : list (transcode_record * size_text)).

(** The three groups of the jobs page, by status. *)
Definition is_active (j : Job) : bool :=
  (Engine.status j =? "processing")%string || (Engine.status j =? "pending")%string.

Definition is_completed (j : Job) : bool :=
  (Engine.status j =? "completed")%string.

Definition is_failed (j : Job) : bool :=
  negb (is_active j) && negb (is_completed j).

(** *** What a request does besides returning *)

(** The calls into the engine. *)
Inductive call : Type :=
| CreateJob (media_item : MediaItem) (preset_name : string)
| StartTranscode (job : Job) (media_item : MediaItem) (preset_name : string)
    (output_root : pyval)
| CancelJob (job_id : string)
| DeleteTranscode (filename : string) (output_root : pyval).

(** The state a request runs in: the messages flashed so far, each with its
    category, the engine calls made so far, and the engine's own state. *)
Record world (E : Type) : Type := mkWorld {
  flashed : list (string * string);
  called : list call;
  engine : E
}.

Arguments mkWorld {E} _ _ _.
Arguments flashed {E} _.
Arguments called {E} _.
Arguments engine {E} _.

(** A route: it returns or raises, and leaves a world behind either way. *)
Definition route (E A : Type) : Type := world E -> result A * world E.

Definition ret {E A : Type} (a : A) : route E A := fun w => (Ok a, w).

Definition bind {E A B : Type} (m : route E A) (k : A -> route E B)
  : route E B :=
  fun w =>
    match m w with
    | (Ok a, w') => k a w'
    | (Raise e, w') => (Raise e, w')
    end.

Definition lift {E A : Type} (r : result A) : route E A := fun w => (r, w).

(** [flash(message, category)]; the category defaults to ["message"]. *)
Definition flash {E : Type} (message category : string) : route E unit :=
  fun w => (Ok tt, mkWorld (flashed w ++ [(message, category)]) (called w) (engine w)).

(** A call into the engine: it is recorded and acts on the engine's state. *)
Definition invoke {E A : Type} (c : call) (f : E -> A * E) : route E A :=
  fun w =>
    let (a, e') := f (engine w) in
    (Ok a, mkWorld (flashed w) (called w ++ [c]) e').

(** A call into the engine that may raise. *)
Definition invoke_result {E A : Type} (c : call) (f : E -> result A * E)
  : route E A :=
  fun w =>
    let (r, e') := f (engine w) in
    (r, mkWorld (flashed w) (called w ++ [c]) e').

Notation "x <~ m ;; k" := (bind m (fun x => k))
  (at level 61, m at next level, right associativity).

(** [request.form[key]]: a missing field ends the request with 400. *)
Fixpoint form_get (form : list (string * string)) (key : string)
  : result string :=
  match form with
  | [] => Raise BadRequestKeyError
  | (k, v) :: form' => if (k =? key)%string then Ok v else form_get form' key
  end.

(** [os.path.join(a, b)] of [posixpath]. *)
Fixpoint endswith_slash (s : string) : bool :=
  match s with
  | EmptyString => false
  | String c EmptyString => Ascii.eqb c "/"
  | String _ s' => endswith_slash s'
  end.

Definition path_join (a b : string) : string :=
  if startswith b "/" then b
  else if (a =? "")%string || endswith_slash a then a ++ b
  else a ++ "/" ++ b.

(** A path argument has to be a string. *)
Definition fspath (v : pyval) : result string :=
  match v with
  | PyStr s => Ok s
  | _ => Raise TypeError
  end.

(** [list.sort(key=key)]: a stable insertion by key. *)
Fixpoint insert_by {A : Type} (key : A -> nat) (x : A) (l : list A) : list A :=
  match l with
  | [] => [x]
  | y :: l' =>
      if (key x <=? key y)%nat then x :: y :: l' else y :: insert_by key x l'
  end.

Definition sort_by {A : Type} (key : A -> nat) (l : list A) : list A :=
  fold_right (insert_by key) [] l.

Section Routes.

(** The engine's state, and the collaborators whose code is not among the
    sources: the catalog lookups of [squishy.scanner], the calls into
    [squishy.transcoder] and [squishy.completed]. *)
Context {E : Type}.
Variable get_media : string -> option MediaItem.
Variable get_show : string -> option Show.
Variable create_job : MediaItem -> string -> E -> result Job * E.
Variable start_transcode : Job -> MediaItem -> string -> pyval -> E -> result unit * E.
Variable cancel_transcode_job : string -> E -> bool * E.
Variable delete_transcode : string -> pyval -> E -> (bool * string) * E.
Variable apply_output_path_mapping : pyval -> result pyval.
Variable get_completed_transcodes : pyval -> list transcode_record.

(** The file at [config_path] while the request runs. *)
Variable config_file : Cfg.config_file.

(** The filesystem as [os.path] answers: [getsize] is [None] where Python
    raises [OSError]. *)
Variable exists_ : string -> bool.
Variable isfile : string -> bool.
Variable getsize : string -> option Z.
Variable realpath : string -> string.

Definition os_path_getsize (p : string) : result Z :=
  match getsize p with
  | Some n => Ok n
  | None => Raise OSError
  end.

(** [redirect(url_for("ui.show_detail", show_id=show_id))].  The rule
    [/shows/<show_id>] needs its argument and [url_for] drops an argument
    that is [None], so without a show identifier no URL can be built and
    [url_for] raises [BuildError]. *)
Definition redirect_show_detail (show_id : option string) : result response :=
  match show_id with
  | Some _ => Ok (Redirect "ui.show_detail" [("show_id", show_id)])
  | None => Raise BuildError
  end.

(** The two ways a route goes back to where the request came from: lines
    125-128 and 136-139. *)
Definition back_to_media (media_id : string) (media_item : MediaItem)
  : result response :=
  if (type media_item =? "movie")%string
  then Ok (Redirect "ui.media_detail" [("media_id", Some media_id)])
  else redirect_show_detail (show_id media_item).

(** [transcode(media_id)], the POST route [/transcode/<media_id>]. *)
Definition transcode (media_id : string) (form : list (string * string))
  : route E response :=
  preset_name <~ lift (form_get form "preset_name") ;;
  match get_media media_id with
  | None =>
      _ <~ flash "Media not found" "message" ;;
      ret (Redirect "ui.index" [])
  | Some media_item =>
      config <~ lift (Cfg.load_config config_file) ;;
      known <~ lift (py_in preset_name (Cfg.presets config)) ;;
      if negb known
      then
        _ <~ flash "Invalid preset" "message" ;;
        lift (back_to_media media_id media_item)
      else
        job <~ invoke_result (CreateJob media_item preset_name)
                 (create_job media_item preset_name) ;;
        _ <~ invoke_result
               (StartTranscode job media_item preset_name (Cfg.transcode_path config))
               (start_transcode job media_item preset_name (Cfg.transcode_path config)) ;;
        _ <~ flash ("Transcoding job started with preset: " ++ preset_name) "message" ;;
        lift (back_to_media media_id media_item)
  end.

(** [cancel_job(job_id)], the POST route [/jobs/<job_id>/cancel]. *)
Definition cancel_job (job_id : string) : route E response :=
  success <~ invoke (CancelJob job_id) (cancel_transcode_job job_id) ;;
  _ <~ (if success : bool
        then flash "Job cancelled successfully" "message"
        else flash "Could not cancel job" "error") ;;
  ret (Redirect "ui.jobs" []).

(** [delete_completed_transcode(filename)], the POST route
    [/completed/delete/<filename>]. *)
Definition delete_completed_transcode (filename : string) : route E response :=
  config <~ lift (Cfg.load_config config_file) ;;
  let transcode_path := Cfg.transcode_path config in
  answer <~ invoke (DeleteTranscode filename transcode_path)
              (delete_transcode filename transcode_path) ;;
  let (success, message) := answer : bool * string in
  _ <~ (if success
        then flash ("Transcode deleted: " ++ message) "message"
        else flash ("Error deleting transcode: " ++ message) "error") ;;
  ret (Redirect "ui.completed" []).

(** [download_file(filename)], the route [/download/<filename>]. *)
Definition download_file (filename : string) : route E response :=
  config <~ lift (Cfg.load_config config_file) ;;
  let transcode_path := Cfg.transcode_path config in
  transcode_path <~ lift (apply_output_path_mapping transcode_path) ;;
  transcode_path <~ lift (fspath transcode_path) ;;
  let file_path := path_join transcode_path filename in
  if negb (exists_ file_path) || negb (isfile file_path)
  then
    _ <~ flash "File not found" "message" ;;
    ret (Redirect "ui.completed" [])
  else
    let real_transcode_path := realpath transcode_path in
    let real_file_path := realpath file_path in
    if negb (startswith real_file_path real_transcode_path)
    then
      _ <~ flash "Invalid file path" "message" ;;
      ret (Redirect "ui.completed" [])
    else ret (SendFile file_path true).

(** *** The jobs page *)

(** Lines 156-173, inside the [try]: the size shown for a job whose media
    item is known. *)
Definition job_file_size (job : Job) (media_item : MediaItem) : result size_text :=
  file_size_bytes <- os_path_getsize (path media_item) ;;
  let file_size := Plain (format_file_size file_size_bytes) in
  match Engine.output_path job with
  | Some output_path =>
      if (Engine.status job =? "completed")%string
         && nonempty (Engine.output_path job)
         && exists_ output_path
      then
        output_size_bytes <- os_path_getsize output_path ;;
        let output_size := format_file_size output_size_bytes in
        if file_size_bytes >? 0
        then
          pct <- compression_pct output_size_bytes file_size_bytes ;;
          Ok (Smaller (format_file_size file_size_bytes) output_size pct)
        else Ok file_size
      else Ok file_size
  | None => Ok file_size
  end.

(** Lines 176-183: the title, with the show's for an episode. *)
Definition job_media_title (media_item : MediaItem) : string :=
  if (type media_item =? "episode")%string && nonempty (show_id media_item)
  then
    match show_id media_item with
    | Some sid =>
        match get_show sid with
        | Some show => title show ++ " - " ++ display_name media_item
        | None => display_name media_item
        end
    | None => display_name media_item
    end
  else display_name media_item.

(** Lines 152-223 up to the categorisation: the [job_data] of one job.  The
    [except] clause catches [OSError] (of which [FileNotFoundError] is a
    kind) and nothing else. *)
Definition job_row (job : Job) : result job_data :=
  match get_media (Engine.media_id job) with
  | Some media_item =>
      match job_file_size job media_item with
      | Ok file_size => Ok (mkJobData job (job_media_title media_item) file_size)
      | Raise OSError => Ok (mkJobData job (display_name media_item) (Text "N/A"))
      | Raise e => Raise e
      end
  | None => Ok (mkJobData job "Unknown" (Text "N/A"))
  end.

(** The three lists the loop fills. *)
Record groups : Type := mkGroups {
  active_jobs : list job_data;
  completed_jobs : list job_data;
  failed_jobs : list job_data
}.

(** "Categorize job by status", the same in the three branches. *)
Definition categorize (g : groups) (job_data : job_data) : groups :=
  let st := Engine.status (job job_data) in
  if (st =? "processing")%string || (st =? "pending")%string
  then mkGroups (active_jobs g ++ [job_data]) (completed_jobs g) (failed_jobs g)
  else if (st =? "completed")%string
  then mkGroups (active_jobs g) (completed_jobs g ++ [job_data]) (failed_jobs g)
  else mkGroups (active_jobs g) (completed_jobs g) (failed_jobs g ++ [job_data]).

(** [for job in JOBS.values(): ...]. *)
Fixpoint jobs_loop (JOBS : list Job) (g : groups) : result groups :=
  match JOBS with
  | [] => Ok g
  | job :: rest =>
      job_data <- job_row job ;;
      jobs_loop rest (categorize g job_data)
  end.

(** [jobs()], the route [/jobs]; [JOBS] is [JOBS.values()]. *)
Definition jobs (JOBS : list Job) : result response :=
  g <- jobs_loop JOBS (mkGroups [] [] []) ;;
  let active_jobs :=
    sort_by (fun x => if (Engine.status (job x) =? "processing")%string
                      then 0%nat else 1%nat) (active_jobs g) in
  Ok (JobsPage active_jobs (completed_jobs g) (failed_jobs g)).

(** *** The completed page *)

Fixpoint record_get (t : transcode_record) (key : string) : option string :=
  match t with
  | [] => None
  | (k, v) :: t' => if (k =? key)%string then Some v else record_get t' key
  end.

Definition record_item (t : transcode_record) (key : string) : result string :=
  match record_get t key with
  | Some v => Ok v
  | None => Raise KeyError
  end.

(** Lines 271-289: the text stored under ["size_comparison"]. *)
Definition size_comparison (t : transcode_record) : result size_text :=
  let stored :=
    Text (match record_get t "output_size" with
          | Some s => s
          | None => "Unknown"
          end) in
  match record_get t "original_path" with
  | Some original_path =>
      if exists_ original_path
      then
        original_size_bytes <- os_path_getsize original_path ;;
        let original_size := format_file_size original_size_bytes in
        file_path <- record_item t "file_path" ;;
        output_size_bytes <- os_path_getsize file_path ;;
        let output_size := format_file_size output_size_bytes in
        if original_size_bytes >? 0
        then
          pct <- compression_pct output_size_bytes original_size_bytes ;;
          Ok (Smaller original_size output_size pct)
        else Ok (Plain output_size)
      else Ok stored
  | None => Ok stored
  end.

Fixpoint completed_loop (ts : list transcode_record)
  : result (list (transcode_record * size_text)) :=
  match ts with
  | [] => Ok []
  | t :: ts' =>
      c <- size_comparison t ;;
      rest <- completed_loop ts' ;;
      Ok ((t, c) :: rest)
  end.

(** [completed()], the route [/completed]. *)
Definition completed : result response :=
  config <- Cfg.load_config config_file ;;
  let completed_transcodes := get_completed_transcodes (Cfg.transcode_path config) in
  transcodes <- completed_loop completed_transcodes ;;
  Ok (CompletedPage transcodes).

End Routes.

End Ui.

(* ===================================================================== *)
(** ** squishy/config.py: [save_config] *)
(* ===================================================================== *)

Module CfgSave.

Import Cfg.

(** [save_config]: the dict [config_data] that is written to the file.  The
    server entries are added last, for one server at most. *)
Definition save_config (config : Config) : pydict :=
  let config_data :=
    [ ("media_path", media_path config);
      ("transcode_path", transcode_path config);
      ("ffmpeg_path", ffmpeg_path config);
      ("ffprobe_path", ffprobe_path config);
      ("presets", presets config);
      ("path_mappings", path_mappings config);
      ("max_concurrent_jobs", max_concurrent_jobs config);
      ("hw_accel", hw_accel config);
      ("hw_device", hw_device config);
      ("hw_capabilities", hw_capabilities config);
      ("enabled_libraries", enabled_libraries config);
      ("log_level", log_level config) ] in
  if truthy (py_and (jellyfin_url config) (jellyfin_api_key config))
  then setitem (setitem config_data "jellyfin_url" (jellyfin_url config))
               "jellyfin_api_key" (jellyfin_api_key config)
  else if truthy (py_and (plex_url config) (plex_token config))
  then setitem (setitem config_data "plex_url" (plex_url config))
               "plex_token" (plex_token config)
  else config_data.

(** The file a later [load_config] finds once [save_config] has written it:
    [json.load] reads back the value [json.dump] wrote. *)
Definition saved_file (config : Config) : config_file :=
  FileJson (PyDict (save_config config)).

(** The keys [load_config] reads in the document. *)
Definition known_keys : list string :=
  [ "presets"; "media_path"; "media_paths"; "path_mappings";
    "enabled_libraries"; "transcode_path"; "ffmpeg_path"; "ffprobe_path";
    "jellyfin_url"; "jellyfin_api_key"; "plex_url"; "plex_token";
    "max_concurrent_jobs"; "hw_accel"; "hw_device"; "hw_capabilities";
    "log_level" ].

(** Jellyfin is configured: both its values are truthy. *)
Definition has_jellyfin (config : Config) : bool :=
  truthy (py_and (jellyfin_url config) (jellyfin_api_key config)).

(** Plex is configured. *)
Definition has_plex (config : Config) : bool :=
  truthy (py_and (plex_url config) (plex_token config)).

End CfgSave.

(* ===================================================================== *)
(** ** squishy/app.py *)
(* ===================================================================== *)

Module App.

Import Cfg.

(** The scan [perform_initial_scan] starts in the background. *)
Inductive scan : Type :=
| ScanJellyfin (url api_key : pyval)
| ScanPlex (url token : pyval)
| NoScan.

(** [perform_initial_scan(config)]. *)
Definition perform_initial_scan (config : Config) : scan :=
  if truthy (py_and (jellyfin_url config) (jellyfin_api_key config))
  then ScanJellyfin (jellyfin_url config) (jellyfin_api_key config)
  else if truthy (py_and (plex_url config) (plex_token config))
  then ScanPlex (plex_url config) (plex_token config)
  else NoScan.

(** [check_first_run], the [before_request] hook of [create_app].
    [is_first_run] is what the function of that name answers, and [session]
    is the entry ['onboarding_in_progress'] of the session, [None] when it
    has none.  The hook returns the redirect, or [None] to let the request
    through, and the entry as it leaves it. *)
Definition check_first_run (is_first_run : bool) (config_file : config_file)
           (path : string) (session : option pyval)
  : result (option Ui.response * option pyval) :=
  if startswith path "/static" || startswith path "/onboarding"
  then Ok (None, session)
  else if startswith path "/api"
  then Ok (None, session)
  else if startswith path "/socket.io"
  then Ok (None, session)
  else
    let first_run := is_first_run in
    let onboarding_active :=
      match session with
      | Some v => truthy v
      | None => false
      end in
    state <-
      (if negb first_run && onboarding_active
       then
         config <- load_config config_file ;;
         let has_jellyfin := py_and (jellyfin_url config) (jellyfin_api_key config) in
         let has_plex := py_and (plex_url config) (plex_token config) in
         if truthy (py_or has_jellyfin has_plex)
         then Ok (None, false)
         else Ok (session, onboarding_active)
       else Ok (session, onboarding_active)) ;;
    let (session, onboarding_active) := state : option pyval * bool in
    if (first_run || onboarding_active) && negb (startswith path "/onboarding")
    then Ok (Some (Ui.Redirect "onboarding.index" []), session)
    else Ok (None, session).

End App.

(* ===================================================================== *)
(** ** squishy/blueprints/ui.py: the detail and episode routes *)
(* ===================================================================== *)

Module UiMore.

Import Ui.

(** What these routes return: a [response] as before, one of the two
    detail pages with the context [render_template] is given, or
    [send_file(path, as_attachment, download_name)]. *)
Inductive page : Type :=
| Reply (r : response)
| MediaDetailPage (media : MediaItem) (profiles : pyval)
| ShowDetailPage (show : Show) (profiles : pyval) (episode_count : nat)
    (valid_episode_ids : list string)
| SendNamed (file_path : string) (as_attachment : bool) (download_name : string).

(** ['/' in s]. *)
Fixpoint has_slash (s : string) : bool :=
  match s with
  | EmptyString => false
  | String c s' => Ascii.eqb c "/" || has_slash s'
  end.

(** [os.path.basename(p)] of [posixpath]: what follows the last slash. *)
Fixpoint basename (p : string) : string :=
  match p with
  | EmptyString => EmptyString
  | String c p' => if has_slash p then basename p' else p
  end.

(** [x in s] and [s.add(x)] for a set of strings, kept as a list without
    repetition. *)
Definition in_set (x : string) (s : list string) : bool :=
  existsb (fun y => (y =? x)%string) s.

Definition set_add (x : string) (s : list string) : list string :=
  if in_set x s then s else (s ++ [x])%list.

(** The three counters of [show_detail]. *)
Record tally : Type := mkTally {
  episode_count : nat;
  episode_ids : list string;
  valid_episode_ids : list string
}.

Section MoreRoutes.

Context {E : Type}.
Variable get_media : string -> option MediaItem.
Variable get_show : string -> option Show.

(** The identifiers of the episodes of a show, season by season, in the
    order of [show.seasons.values()] and [season.episodes.values()]. *)
Variable seasons : Show -> list (list string).

Variable config_file : Cfg.config_file.
Variable exists_ : string -> bool.
Variable isfile : string -> bool.

(** [media_detail(media_id)], the route [/media/<media_id>]. *)
Definition media_detail (media_id : string) : route E page :=
  match get_media media_id with
  | None =>
      _ <~ flash "Media not found" "message" ;;
      ret (Reply (Redirect "ui.index" []))
  | Some media_item =>
      config <~ lift (Cfg.load_config config_file) ;;
      if (type media_item =? "episode")%string && nonempty (show_id media_item)
      then ret (Reply (Redirect "ui.show_detail" [("show_id", show_id media_item)]))
      else ret (MediaDetailPage media_item (Cfg.presets config))
  end.

(** Lines 86-96: the body of the inner loop, for one episode. *)
Definition count_episode (t : tally) (episode_id : string) : tally :=
  match get_media episode_id with
  | None => mkTally (S (episode_count t)) (episode_ids t) (valid_episode_ids t)
  | Some _ =>
      mkTally (S (episode_count t))
              (episode_ids t ++ [episode_id])
              (set_add episode_id (valid_episode_ids t))
  end.

(** Lines 81-96: the two nested loops. *)
Definition count_episodes (show : Show) : tally :=
  fold_left (fun t season => fold_left count_episode season t)
            (seasons show) (mkTally 0 [] []).

(** [show_detail(show_id)], the route [/shows/<show_id>]. *)
Definition show_detail (show_id : string) : route E page :=
  match get_show show_id with
  | None =>
      _ <~ flash "Show not found" "message" ;;
      ret (Reply (Redirect "ui.index" []))
  | Some show =>
      config <~ lift (Cfg.load_config config_file) ;;
      let t := count_episodes show in
      ret (ShowDetailPage show (Cfg.presets config) (episode_count t)
                          (valid_episode_ids t))
  end.

(** [download_episode(media_id)], the route [/download-episode/<media_id>]. *)
Definition download_episode (media_id : string) : route E page :=
  match get_media media_id with
  | None =>
      _ <~ flash "Media not found" "message" ;;
      ret (Reply (Redirect "ui.index" []))
  | Some media_item =>
      if (path media_item =? "")%string
         || negb (exists_ (path media_item))
         || negb (isfile (path media_item))
      then
        _ <~ flash "Episode file not found" "message" ;;
        if nonempty (show_id media_item)
        then ret (Reply (Redirect "ui.show_detail" [("show_id", show_id media_item)]))
        else ret (Reply (Redirect "ui.index" []))
      else
        let filename := basename (path media_item) in
        ret (SendNamed (path media_item) true filename)
  end.

End MoreRoutes.

(** The jobs of the active group that are processing, and those that are
    pending. *)
Definition is_processing_job (j : Job) : bool :=
  (Engine.status j =? "processing")%string.

Definition is_pending_job (j : Job) : bool :=
  (Engine.status j =? "pending")%string.

(** The reading of a size text in bytes per unit. *)
Definition unit_bytes (h : human_size) : Z :=
  match h with
  | KB _ => 1024
  | MB _ => 1024 * 1024
  | GB _ => 1024 * 1024 * 1024
  end.

Definition quantity (h : human_size) : Q :=
  match h with
  | KB x | MB x | GB x => x
  end.

(** [round(num / den, 2)] in hundredths, for [den > 0]: the nearest
    integer to [100 * num / den], a tie going to the even one.  Python
    rounds a float correctly to the nearest decimal and prints the shortest
    text that reads back as the result; with [den] a power of two and
    [|num| < 2^53] the quotient is an exact float, and the text printed is
    this number of hundredths. *)
Definition round_hundredths (num den : Z) : Z :=
  let q := (num * 100) / den in
  let r := (num * 100) mod den in
  if 2 * r <? den then q
  else if den <? 2 * r then q + 1
  else if Z.even q then q else q + 1.

(** The figure [format_file_size] prints, in hundredths of its unit:
    [round(bytes_size / unit, 2)]. *)
Definition shown_hundredths (h : human_size) : Z :=
  round_hundredths (Qnum (quantity h)) (Zpos (Qden (quantity h))).

End UiMore.

(* ===================================================================== *)
(** ** squishy/config.py: [load_config] with its path *)
(* ===================================================================== *)

Module CfgPath.

Import Cfg.

(** [p[:p.rfind('/') + 1]]: the path up to its last slash, included. *)
Fixpoint head (p : string) : string :=
  match p with
  | EmptyString => EmptyString
  | String c p' => if UiMore.has_slash p then String c (head p') else EmptyString
  end.

(** [s == '/' * len(s)]. *)
Fixpoint all_slashes (s : string) : bool :=
  match s with
  | EmptyString => true
  | String c s' => Ascii.eqb c "/" && all_slashes s'
  end.

(** [s.rstrip('/')]. *)
Fixpoint rstrip_slashes (s : string) : string :=
  match s with
  | EmptyString => EmptyString
  | String c s' =>
      match rstrip_slashes s' with
      | EmptyString => if Ascii.eqb c "/" then EmptyString else String c EmptyString
      | r => String c r
      end
  end.

(** [os.path.dirname(p)] of [posixpath]. *)
Definition dirname (p : string) : string :=
  let h := head p in
  if negb (h =? "")%string && negb (all_slashes h) then rstrip_slashes h else h.

(** The filesystem [load_config] meets: which paths exist, what
    [os.makedirs(p, exist_ok=True)] does, and what opening a file and
    parsing it with [json.load] gives, a value or the exception of [open],
    of the decoding or of the parser. *)
Record disk : Type := mkDisk {
  present : string -> bool;
  makedirs : string -> result unit;
  read_json : string -> result pyval
}.

(** [os.path.exists(p)]: the empty path never exists. *)
Definition os_path_exists (d : disk) (p : string) : bool :=
  if (p =? "")%string then false else present d p.

(** [os.makedirs(p, exist_ok=True)]: on the empty path it raises
    [FileNotFoundError], a kind of [OSError]. *)
Definition os_makedirs (d : disk) (p : string) : result unit :=
  if (p =? "")%string then Raise OSError else makedirs d p.

(** Lines 43-44: the path given, or [CONFIG_PATH] of the environment, or
    the default. *)
Definition resolve (environ config_path : option string) : string :=
  match config_path with
  | Some p => p
  | None =>
      match environ with
      | Some p => p
      | None => "./config/config.json"
      end
  end.

(** [load_config(config_path)], whole: lines 43-49 make sure of the
    directory of the path, lines 95-105 look at the file, and
    [Cfg.load_config] is the rest, from what was found there. *)
Definition load_config (d : disk) (environ config_path : option string)
  : result Config :=
  let config_path := resolve environ config_path in
  let config_dir := dirname config_path in
  _ <- (if negb (os_path_exists d config_dir)
        then os_makedirs d config_dir
        else Ok tt) ;;
  if negb (os_path_exists d config_path)
  then Cfg.load_config FileAbsent
  else
    doc <- read_json d config_path ;;
    Cfg.load_config (FileJson doc).

(** The directory of the config path is there, or can be made. *)
Definition directory_ready (d : disk) (config_dir : string) : bool :=
  os_path_exists d config_dir
  || match os_makedirs d config_dir with
     | Ok _ => true
     | Raise _ => false
     end.

End CfgPath.

(* ===================================================================== *)
(** ** Properties of [load_config] *)
(* ===================================================================== *)

Module CfgFacts.

Import Cfg.

Lemma lookup_setitem_other (d : pydict) (k k' : string) (v : pyval) :
  k <> k' -> lookup (setitem d k v) k' = lookup d k'.
Proof.
  intros Hne. induction d as [|[k0 v0] d IH]; simpl.
  - destruct (String.eqb_spec k k'); congruence.
  - destruct (String.eqb_spec k0 k) as [->|Hk0]; simpl.
    + destruct (String.eqb_spec k k'); congruence.
    + destruct (String.eqb_spec k0 k'); auto.
Qed.

Lemma lookup_setitem_same (d : pydict) (k : string) (v : pyval) :
  lookup (setitem d k v) k = Some v.
Proof.
  induction d as [|[k0 v0] d IH]; simpl.
  - now rewrite String.eqb_refl.
  - destruct (String.eqb_spec k0 k) as [->|Hk0]; simpl.
    + now rewrite String.eqb_refl.
    + destruct (String.eqb_spec k0 k); congruence.
Qed.

Lemma get_or_setitem_other (d : pydict) (k k' : string) (v dflt : pyval) :
  k <> k' -> get_or (setitem d k v) k' dflt = get_or d k' dflt.
Proof. intros H. unfold get_or. now rewrite lookup_setitem_other. Qed.

(** What [load_config] returns is the post-initialised record built from
    [config_data]; its fields can be read off once the two steps that may
    raise have returned. *)
Lemma load_config_inv (f : config_file) (c : Config) :
  load_config f = Ok c ->
  exists config_data mp,
    read_config_data f = Ok config_data /\
    migrate_media_path config_data = Ok mp /\
    max_concurrent_jobs c = get_or config_data "max_concurrent_jobs" (PyInt 1) /\
    presets c = none_to_empty (get_or config_data "presets" default_presets) /\
    transcode_path c = get_or config_data "transcode_path" (PyStr "/transcodes").
Proof.
  unfold load_config. intros H.
  destruct (read_config_data f) as [cd|e] eqn:Hcd; simpl in H; [|discriminate].
  destruct (migrate_media_path cd) as [mp|e] eqn:Hmp; simpl in H; [|discriminate].
  injection H as <-. exists cd, mp. simpl. repeat split; auto.
Qed.

Lemma migrate_setitem_presets (d : pydict) (v : pyval) :
  migrate_media_path (setitem d "presets" v) = migrate_media_path d.
Proof.
  unfold migrate_media_path, get, get_or, contains.
  rewrite !lookup_setitem_other by discriminate. reflexivity.
Qed.

Lemma migration_succeeds_ok (d : pydict) :
  migration_succeeds d = true -> exists mp, migrate_media_path d = Ok mp.
Proof.
  unfold migration_succeeds, migrate_media_path. intros H.
  destruct (truthy (get d "media_path")); simpl in *; [eauto|].
  destruct (contains d "media_paths"); simpl in *; [|eauto].
  destruct (truthy (get d "media_paths")) eqn:Ht; simpl in *; [|eauto].
  destruct (get d "media_paths") as [| | | | s | l | ]; try discriminate.
  - destruct s; [discriminate|]. simpl. eauto.
  - destruct l; [discriminate|]. simpl. eauto.
Qed.

Lemma read_config_data_dict (d cd : pydict) :
  read_config_data (FileJson (PyDict d)) = Ok cd ->
  cd = d \/ cd = setitem d "presets" default_presets.
Proof.
  simpl. destruct (negb (contains d "presets") || negb (truthy (get d "presets")));
    intros [= <-]; auto.
Qed.

(** C4, as stated, fails: a config file holding
    [{"max_concurrent_jobs": 0}] loads into a [Config] whose
    [max_concurrent_jobs] is 0. *)
Lemma load_config_ceiling_zero :
  exists c,
    load_config (FileJson (PyDict [("max_concurrent_jobs", PyInt 0)])) = Ok c /\
    max_concurrent_jobs c = PyInt 0 /\
    at_least_one (max_concurrent_jobs c) = false.
Proof. eexists. split; [reflexivity|]. split; reflexivity. Qed.

(** C4, amended: with the config file absent, [load_config] returns a
    [Config] whose [max_concurrent_jobs] is 1; from a file holding a JSON
    object it returns the object's [max_concurrent_jobs] entry as it is, and
    1 when there is none, so the value is at least 1 exactly when the
    document makes it so. *)
Theorem load_config_max_concurrent_jobs :
  (exists c, load_config FileAbsent = Ok c /\ max_concurrent_jobs c = PyInt 1) /\
  (forall d c,
      load_config (FileJson (PyDict d)) = Ok c ->
      max_concurrent_jobs c = get_or d "max_concurrent_jobs" (PyInt 1)) /\
  (forall d c,
      load_config (FileJson (PyDict d)) = Ok c ->
      contains d "max_concurrent_jobs" = false ->
      at_least_one (max_concurrent_jobs c) = true).
Proof.
  assert (Hget : forall d c,
      load_config (FileJson (PyDict d)) = Ok c ->
      max_concurrent_jobs c = get_or d "max_concurrent_jobs" (PyInt 1)).
  { intros d c H.
    destruct (load_config_inv _ _ H) as (cd & mp & Hcd & _ & Hm & _).
    rewrite Hm. destruct (read_config_data_dict _ _ Hcd) as [->| ->]; auto.
    apply get_or_setitem_other. discriminate. }
  split; [|split]; auto.
  - eexists. split; reflexivity.
  - intros d c H Hno. rewrite (Hget _ _ H). unfold get_or, contains in *.
    destruct (lookup d "max_concurrent_jobs"); [discriminate|reflexivity].
Qed.

Lemma load_config_max_concurrent_jobs_witness :
  exists c,
    load_config (FileJson (PyDict [("max_concurrent_jobs", PyInt 4)])) = Ok c /\
    max_concurrent_jobs c = PyInt 4.
Proof.
  eexists. split; [reflexivity|].
  apply (proj1 (proj2 load_config_max_concurrent_jobs)
           [("max_concurrent_jobs", PyInt 4)]).
  reflexivity.
Defined.

(** From the file on: the document [{"media_paths": 5}] has no [presets]
    key, and line 128 raises [TypeError] on it by subscripting the number. *)
Lemma load_config_no_presets_raises :
  defines_no_presets [("media_paths", PyInt 5)] = true /\
  load_config (FileJson (PyDict [("media_paths", PyInt 5)])) = Raise TypeError.
Proof. split; reflexivity. Qed.

(** From the file on: the presets of an absent file, and of a JSON object
    that defines none and on which the [media_paths] migration does not
    raise, are the three defaults; whenever a [Config] comes out of a file
    without presets, these are its presets. *)
Theorem load_config_default_presets :
  (preset_names default_presets = ["high"; "medium"; "low"] /\
   preset_entry default_presets "low" "codec" = Some (PyStr "hevc") /\
   preset_entry default_presets "low" "scale" = Some (PyStr "480p") /\
   preset_entry default_presets "low" "container" = Some (PyStr ".mkv") /\
   preset_entry default_presets "low" "crf" = Some (PyInt 28) /\
   preset_entry default_presets "low" "allow_fallback" = Some (PyBool true)) /\
  (exists c, load_config FileAbsent = Ok c /\ presets c = default_presets) /\
  (forall d,
      defines_no_presets d = true ->
      migration_succeeds d = true ->
      exists c, load_config (FileJson (PyDict d)) = Ok c /\
                presets c = default_presets) /\
  (forall d c,
      defines_no_presets d = true ->
      load_config (FileJson (PyDict d)) = Ok c ->
      presets c = default_presets).
Proof.
  split; [repeat split|]. split; [eexists; split; reflexivity|].
  assert (Hret : forall d c,
      defines_no_presets d = true ->
      load_config (FileJson (PyDict d)) = Ok c ->
      presets c = default_presets).
  { intros d c Hno H.
    destruct (load_config_inv _ _ H) as (cd & mp & Hcd & _ & _ & Hp & _).
    simpl in Hcd. unfold defines_no_presets in Hno. rewrite Hno in Hcd.
    injection Hcd as <-. rewrite Hp. unfold get_or.
    rewrite lookup_setitem_same. reflexivity. }
  split; auto.
  intros d Hno Hmig.
  destruct (migration_succeeds_ok _ Hmig) as [mp Hmp].
  assert (Hload : exists c, load_config (FileJson (PyDict d)) = Ok c).
  { unfold load_config. simpl. unfold defines_no_presets in Hno. rewrite Hno.
    simpl. rewrite migrate_setitem_presets, Hmp. simpl. eauto. }
  destruct Hload as [c Hc]. exists c. split; eauto.
Qed.

Lemma load_config_default_presets_witness :
  exists c,
    load_config (FileJson (PyDict [("presets", PyDict []);
                                   ("media_paths", PyList [PyStr "/srv"])])) = Ok c /\
    presets c = default_presets.
Proof.
  apply (proj1 (proj2 (proj2 load_config_default_presets))); reflexivity.
Defined.

End CfgFacts.

(* ===================================================================== *)
(** ** Properties of the Path Mapper *)
(* ===================================================================== *)

Module PathFacts.

Import Engine.

Lemma strip_prefix_app (pre rest : string) :
  strip_prefix pre (pre ++ rest) = Some rest.
Proof.
  induction pre as [|a pre IH]; simpl; [reflexivity|].
  now rewrite Ascii.eqb_refl.
Qed.

Lemma strip_prefix_some (pre s rest : string) :
  strip_prefix pre s = Some rest -> s = pre ++ rest.
Proof.
  revert s. induction pre as [|a pre IH]; intros s H; simpl in *.
  - congruence.
  - destruct s as [|b s]; [discriminate|].
    destruct (Ascii.eqb_spec a b) as [->|]; [|discriminate].
    f_equal. auto.
Qed.

Lemma startswith_app (pre rest : string) : startswith (pre ++ rest) pre = true.
Proof. unfold startswith. now rewrite strip_prefix_app. Qed.

(** Two prefixes of one string overlap. *)
Lemma prefixes_overlap (a b x : string) :
  startswith x a = true -> startswith x b = true -> overlap a b = true.
Proof.
  unfold overlap, startswith. revert b x.
  induction a as [|c a IH]; intros b x Ha Hb.
  - destruct b; reflexivity.
  - destruct b as [|c' b]; [reflexivity|].
    destruct x as [|c0 x]; [discriminate|]. simpl in *.
    destruct (Ascii.eqb_spec c c0) as [->|]; [|discriminate].
    destruct (Ascii.eqb_spec c' c0) as [->|]; [|discriminate].
    rewrite Ascii.eqb_refl. eapply IH; eauto.
Qed.

Lemma overlap_sym (a b : string) : overlap a b = overlap b a.
Proof. unfold overlap. apply orb_comm. Qed.

Lemma map_path_unmatched (table : list (string * string)) (path : string) :
  unmatched table path = true -> map_path table path = path.
Proof.
  unfold unmatched.
  induction table as [|[src dst] table IH]; simpl; [reflexivity|].
  unfold startswith. intros H. apply andb_true_iff in H as [H1 H2].
  destruct (strip_prefix src path); [discriminate|]. auto.
Qed.

Lemma map_path_at (before after : list (string * string))
      (src dst path rest : string) :
  unmatched before path = true ->
  path = src ++ rest ->
  map_path (before ++ (src, dst) :: after) path = dst ++ rest.
Proof.
  unfold unmatched. intros Hb ->.
  induction before as [|[s d] before IH]; simpl in *.
  - now rewrite strip_prefix_app.
  - apply andb_true_iff in Hb as [H1 H2]. unfold startswith in H1.
    destruct (strip_prefix s (src ++ rest)); [discriminate|]. auto.
Qed.

(** [map_path] applies the entry [first_match] finds. *)
Lemma map_path_first_match (table : list (string * string)) (path : string) :
  match first_match table path with
  | Some (src, dst) =>
      In (src, dst) table /\
      exists rest, path = src ++ rest /\ map_path table path = dst ++ rest
  | None => unmatched table path = true
  end.
Proof.
  induction table as [|[s d] table IH]; simpl; [reflexivity|].
  unfold startswith.
  destruct (strip_prefix s path) as [rest|] eqn:Hs.
  - split; [auto|]. exists rest. split; [|reflexivity].
    now apply strip_prefix_some.
  - destruct (first_match table path) as [[src dst]|].
    + destruct IH as [Hin Hrest]. split; auto.
    + exact IH.
Qed.

Lemma unmatched_forall (table : list (string * string)) (path : string) :
  (forall e, In e table -> startswith path (fst e) = false) ->
  unmatched table path = true.
Proof.
  intros H. unfold unmatched. apply forallb_forall. intros e He.
  now rewrite (H e He).
Qed.

(** C3, as stated, fails: in the table [/a -> /b], [/b/c -> /x] no
    destination prefix is matched by a source prefix, and still mapping
    [/a/c] twice gives [/x] where mapping it once gives [/b/c]. *)
Lemma map_path_reapplied_differs :
  ~ (forall table path,
        (forall e, In e table -> unmatched table (snd e) = true) ->
        map_path table (map_path table path) = map_path table path).
Proof.
  intros H.
  specialize (H [("/a", "/b"); ("/b/c", "/x")] "/a/c").
  assert (Hm : map_path [("/a", "/b"); ("/b/c", "/x")]
                 (map_path [("/a", "/b"); ("/b/c", "/x")] "/a/c") = "/x")
    by reflexivity.
  rewrite Hm in H.
  assert (Hx : "/x" = "/b/c"); [|discriminate Hx].
  apply H. intros e [<-|[<-|[]]]; reflexivity.
Qed.

(** The other way of reading "does not match" fares no better: in the
    table [/a -> /a/b] no source prefix starts with the destination prefix,
    and [/a/x] maps to [/a/b/x], which maps to [/a/b/b/x]. *)
Example map_path_reapplied_grows :
  let table := [("/a", "/a/b")] in
  forallb (fun e => forallb (fun e' => negb (startswith (fst e') (snd e))) table)
          table = true /\
  map_path table "/a/x" = "/a/b/x" /\
  map_path table (map_path table "/a/x") = "/a/b/b/x".
Proof. repeat split. Qed.

(** C3, amended: the Path Mapper replaces the source prefix of the first
    entry that matches the path by that entry's destination prefix, returns
    a path no entry matches unchanged, and mapping twice is the same as
    mapping once whenever the destination prefix that was substituted and
    the source prefixes of the table do not overlap: no source prefix is a
    prefix of it, nor it of a source prefix. *)
Theorem map_path_first_match_idempotent :
  forall (table : list (string * string)) (path : string),
    (forall before src dst after rest,
        table = (before ++ (src, dst) :: after)%list ->
        unmatched before path = true ->
        path = src ++ rest ->
        map_path table path = dst ++ rest) /\
    (unmatched table path = true -> map_path table path = path) /\
    ((forall src dst,
         first_match table path = Some (src, dst) ->
         forall e, In e table -> overlap dst (fst e) = false) ->
     map_path table (map_path table path) = map_path table path).
Proof.
  intros table path. split; [|split].
  - intros before src dst after rest -> Hb Hp. now apply map_path_at.
  - apply map_path_unmatched.
  - intros H. pose proof (map_path_first_match table path) as Hfm.
    destruct (first_match table path) as [[src dst]|].
    + destruct Hfm as [Hin (rest & -> & Hmap)]. rewrite Hmap.
      apply map_path_unmatched, unmatched_forall. intros e He.
      destruct (startswith (dst ++ rest) (fst e)) eqn:Hsw; [|reflexivity].
      pose proof (prefixes_overlap dst (fst e) (dst ++ rest)
                    (startswith_app dst rest) Hsw) as Hov.
      rewrite (H src dst eq_refl e He) in Hov. discriminate.
    + now rewrite !(map_path_unmatched _ _ Hfm).
Qed.

Lemma map_path_first_match_idempotent_witness :
  let table := [("/media", "/mnt/library"); ("/srv", "/mnt/other")] in
  map_path table "/media/film.mkv" = "/mnt/library/film.mkv" /\
  map_path table "/home/film.mkv" = "/home/film.mkv" /\
  map_path table (map_path table "/media/film.mkv")
  = map_path table "/media/film.mkv".
Proof.
  intros table.
  destruct (map_path_first_match_idempotent table "/media/film.mkv")
    as (Hfirst & _ & Hidem).
  destruct (map_path_first_match_idempotent table "/home/film.mkv")
    as (_ & Hnone & _).
  split; [|split].
  - apply (Hfirst [] "/media" "/mnt/library" [("/srv", "/mnt/other")] "/film.mkv");
      reflexivity.
  - apply Hnone. reflexivity.
  - apply Hidem. intros src dst [= <- <-] e [<-|[<-|[]]]; reflexivity.
Defined.

End PathFacts.

(* ===================================================================== *)
(** ** Properties of the Scheduler *)
(* ===================================================================== *)

Module SchedFacts.

Import Engine.

Local Open Scope nat_scope.

Lemma processing_count_cons (j : Job) (reg : list Job) :
  processing_count (j :: reg) = weight j + processing_count reg.
Proof.
  unfold processing_count, weight. simpl. now destruct (is_processing j).
Qed.

Lemma processing_count_app (reg reg' : list Job) :
  processing_count (reg ++ reg')%list = processing_count reg + processing_count reg'.
Proof.
  unfold processing_count. now rewrite filter_app, length_app.
Qed.

(** Rewriting one job moves the count by the difference of its weights. *)
Lemma processing_count_update (reg : list Job) (i : string) (j : Job)
      (f : Job -> Job) :
  find_job reg i = Some j ->
  processing_count (update_job reg i f) + weight j
  = processing_count reg + weight (f j).
Proof.
  induction reg as [|j0 reg IH]; simpl; [discriminate|].
  destruct (id j0 =? i)%string.
  - intros [= ->]. rewrite !processing_count_cons. lia.
  - intros H. rewrite !processing_count_cons. specialize (IH H). lia.
Qed.

Lemma processing_count_delete (reg : list Job) (i : string) (j : Job) :
  find_job reg i = Some j ->
  processing_count (delete_job reg i) + weight j = processing_count reg.
Proof.
  induction reg as [|j0 reg IH]; simpl; [discriminate|].
  destruct (id j0 =? i)%string.
  - intros [= ->]. rewrite processing_count_cons. lia.
  - intros H. rewrite !processing_count_cons. specialize (IH H). lia.
Qed.

Lemma pending_weight (j : Job) :
  (status j =? "pending")%string = true -> weight j = 0.
Proof.
  unfold weight, is_processing. intros H.
  apply String.eqb_eq in H. now rewrite H.
Qed.

Lemma terminal_weight (j : Job) : is_terminal (status j) = true -> weight j = 0.
Proof.
  unfold weight, is_processing, is_terminal. intros H.
  apply orb_true_iff in H as [H|H]; [apply orb_true_iff in H as [H|H]|];
    apply String.eqb_eq in H; now rewrite H.
Qed.

Lemma finished_weight (j : Job) (o : outcome) : weight (finished j o) = 0.
Proof. now destruct o. Qed.

Lemma accounted_init (ceiling : nat) : accounted (init ceiling).
Proof. split; simpl; [reflexivity|lia]. Qed.

Lemma step_ceiling (s : sched) (e : event) :
  max_concurrent_jobs (step s e) = max_concurrent_jobs s.
Proof.
  destruct e as [i m p|i| |i o|i|i]; simpl.
  - unfold create_job. now destruct (find_job (registry s) i).
  - unfold start_transcode. destruct (find_job (registry s) i) as [j|]; auto.
    now destruct (status j =? "pending")%string.
  - unfold admission. destruct (queue s) as [|i q]; auto.
    destruct (running s <? max_concurrent_jobs s); auto.
    destruct (find_job (registry s) i) as [j|]; auto.
    now destruct (status j =? "pending")%string.
  - unfold finish. destruct (find_job (registry s) i) as [j|]; auto.
    now destruct (is_processing j).
  - unfold cancel_job. destruct (find_job (registry s) i) as [j|]; auto.
    destruct (status j =? "pending")%string; auto.
    now destruct (is_processing j).
  - unfold remove_job. destruct (find_job (registry s) i) as [j|]; auto.
    now destruct (is_terminal (status j)).
Qed.

Lemma step_accounted (s : sched) (e : event) :
  accounted s -> accounted (step s e).
Proof.
  unfold accounted. intros [Hc Hr].
  destruct e as [i m p|i| |i o|i|i]; simpl.
  - unfold create_job. destruct (find_job (registry s) i); simpl; auto.
    rewrite processing_count_app. split; [|assumption].
    rewrite Hc. unfold processing_count. simpl. lia.
  - unfold start_transcode. destruct (find_job (registry s) i) as [j|]; auto.
    destruct (status j =? "pending")%string; simpl; auto.
  - unfold admission. destruct (queue s) as [|i q]; auto.
    destruct (Nat.ltb_spec (running s) (max_concurrent_jobs s)); auto.
    destruct (find_job (registry s) i) as [j|] eqn:Hf; simpl; auto.
    destruct (status j =? "pending")%string eqn:Hp; simpl; auto.
    pose proof (processing_count_update _ _ _
                  (fun j => with_status j "processing" None None) Hf) as Hu.
    rewrite (pending_weight _ Hp) in Hu. cbn in Hu. lia.
  - unfold finish. destruct (find_job (registry s) i) as [j|] eqn:Hf; auto.
    destruct (is_processing j) eqn:Hp; simpl; auto.
    pose proof (processing_count_update _ _ _ (fun j => finished j o) Hf) as Hu.
    cbv beta in Hu. rewrite finished_weight in Hu. unfold weight in Hu. rewrite Hp in Hu. lia.
  - unfold cancel_job. destruct (find_job (registry s) i) as [j|] eqn:Hf; auto.
    destruct (status j =? "pending")%string eqn:Hp; simpl.
    + pose proof (processing_count_update _ _ _
                    (fun j => with_status j "cancelled" None None) Hf) as Hu.
      rewrite (pending_weight _ Hp) in Hu. cbn in Hu. lia.
    + destruct (is_processing j); auto.
  - unfold remove_job. destruct (find_job (registry s) i) as [j|] eqn:Hf; auto.
    destruct (is_terminal (status j)) eqn:Ht; simpl; auto.
    pose proof (processing_count_delete _ _ _ Hf) as Hd.
    rewrite (terminal_weight _ Ht) in Hd. lia.
Qed.

Lemma trace_accounted (es : list event) (s : sched) :
  accounted s ->
  Forall (fun s' => accounted s' /\ max_concurrent_jobs s' = max_concurrent_jobs s)
         (trace es s).
Proof.
  revert s. induction es as [|e es IH]; intros s Hs; simpl.
  - constructor; auto.
  - constructor; [auto|].
    specialize (IH (step s e) (step_accounted _ _ Hs)).
    rewrite step_ceiling in IH. exact IH.
Qed.

(** C1: whatever the presentation layer, the Scheduler and the Workers do,
    and in whatever order, in every state the engine passes through the
    number of jobs whose status is ["processing"] is at most the configured
    [max_concurrent_jobs]. *)
Theorem processing_within_ceiling :
  forall (ceiling : nat) (es : list event),
    Forall (fun s => processing_count (registry s) <= ceiling)
           (trace es (init ceiling)).
Proof.
  intros ceiling es.
  pose proof (trace_accounted es (init ceiling) (accounted_init ceiling)) as H.
  eapply Forall_impl; [|exact H].
  intros s [[Hc Hr] Hm]. simpl in Hm. lia.
Qed.

(** A burst of three submissions against a ceiling of two: two jobs are
    let in, the third waits until one of them ends. *)
Example burst_of_three :
  let burst := [ Create "a" "m1" "low"; Start "a";
                 Create "b" "m2" "low"; Start "b";
                 Create "c" "m3" "low"; Start "c";
                 Admission; Admission; Admission ] in
  let s := run burst (init 2) in
  map status (registry s) = ["processing"; "processing"; "pending"]%string /\
  queue s = ["c"%string] /\
  map status (registry (run [Finish "a" (Completed "/transcodes/a.mkv"); Admission] s))
  = ["completed"; "processing"; "processing"]%string.
Proof. repeat split. Qed.

(** A pending job that is cancelled never starts. *)
Example cancelled_before_admission :
  let s := run [ Create "a" "m1" "low"; Start "a"; Cancel "a"; Admission ] (init 1) in
  map status (registry s) = ["cancelled"%string] /\ running s = 0.
Proof. split; reflexivity. Qed.

End SchedFacts.

(* ===================================================================== *)
(** ** Properties of the Completed Transcode Store *)
(* ===================================================================== *)

Module StoreFacts.

Import Engine.

Lemma mem_without (x : string) (l : list string) : mem x (without x l) = false.
Proof.
  unfold mem, without. induction l as [|y l IH]; simpl; [reflexivity|].
  destruct (y =? x)%string eqn:Hy; simpl; [assumption|].
  now rewrite Hy.
Qed.

Lemma delete_transcode_missing (filename : string) (st : store) :
  mem filename (artifacts st) = false ->
  delete_transcode filename st = ((false, "File not found: " ++ filename), st).
Proof. unfold delete_transcode. now intros ->. Qed.

Lemma delete_transcode_removes (filename : string) (st : store) :
  mem filename (artifacts st) = true ->
  mem filename (locked st) = false ->
  exists message st',
    delete_transcode filename st = ((true, message), st') /\
    message <> "" /\
    mem filename (artifacts st') = false /\
    mem filename (sidecars st') = false.
Proof.
  unfold delete_transcode. intros -> ->. simpl.
  destruct (mem filename (sidecars st)); do 2 eexists;
    (split; [reflexivity|]); simpl; rewrite !mem_without;
    repeat split; discriminate.
Qed.

End StoreFacts.

(* ===================================================================== *)
(** ** Properties of the routes *)
(* ===================================================================== *)

Module UiFacts.

Import Ui.

(** Runs a route on a world: unfolds the monad down to the pair it
    returns. *)
Ltac run_route := unfold bind, lift, flash, ret, invoke, invoke_result; simpl.

(** *** [transcode] *)

(** C2, as stated, fails: with no media item under the identifier, a POST
    whose preset name is not configured is answered "Media not found" and
    sent to the index page, not "Invalid preset" and the media or show
    page. *)
Lemma transcode_unknown_media :
  let never_job : MediaItem -> string -> unit -> result Job * unit :=
    fun _ _ e => (Raise KeyError, e) in
  let never_start : Job -> MediaItem -> string -> pyval -> unit -> result unit * unit :=
    fun _ _ _ _ e => (Raise KeyError, e) in
  (exists cfg d,
      Cfg.load_config Cfg.FileAbsent = Ok cfg /\
      Cfg.presets cfg = PyDict d /\
      contains d "ultra" = false) /\
  transcode (fun _ => None) never_job never_start Cfg.FileAbsent
            "m1" [("preset_name", "ultra")] (mkWorld [] [] tt)
  = (Ok (Redirect "ui.index" []),
     mkWorld [("Media not found", "message")] [] tt).
Proof.
  split; [|reflexivity].
  do 2 eexists. split; [reflexivity|]. split; reflexivity.
Qed.

(** C2, amended: a POST to the transcode route whose preset name is not a
    key of the configured presets mapping makes no call into the engine,
    neither [create_job] nor [start_transcode].  When the media item exists
    the caller is told "Invalid preset" and is sent back to the media page
    for a movie, to the show page for an item that is not a movie and has a
    show identifier; when it does not exist, the caller is told "Media not
    found" and sent to the index page. *)
Theorem transcode_invalid_preset :
  forall (E : Type) get_media create_job start_transcode config_file
         (media_id : string) (form : list (string * string)) (w : world E)
         (preset_name : string) (cfg : Cfg.Config) (d : pydict),
    form_get form "preset_name" = Ok preset_name ->
    Cfg.load_config config_file = Ok cfg ->
    Cfg.presets cfg = PyDict d ->
    contains d preset_name = false ->
    exists r w',
      transcode get_media create_job start_transcode config_file
                media_id form w = (r, w') /\
      called w' = called w /\
      engine w' = engine w /\
      match get_media media_id with
      | Some media_item =>
          flashed w' = (flashed w ++ [("Invalid preset", "message")])%list /\
          (type media_item = "movie" ->
           r = Ok (Redirect "ui.media_detail" [("media_id", Some media_id)])) /\
          (forall sid,
              type media_item <> "movie" ->
              show_id media_item = Some sid ->
              r = Ok (Redirect "ui.show_detail" [("show_id", Some sid)]))
      | None =>
          flashed w' = (flashed w ++ [("Media not found", "message")])%list /\
          r = Ok (Redirect "ui.index" [])
      end.
Proof.
  intros E get_media create_job start_transcode config_file media_id form w
         preset_name cfg d Hform Hload Hps Hno.
  unfold transcode. run_route. rewrite Hform.
  destruct (get_media media_id) as [media_item|].
  - rewrite Hload, Hps. simpl. rewrite Hno. simpl.
    unfold back_to_media, redirect_show_detail.
    destruct (String.eqb_spec (type media_item) "movie") as [Hm|Hm].
    + do 2 eexists. split; [reflexivity|]. simpl. repeat split; auto.
      intros sid Hne. contradiction.
    + destruct (show_id media_item) as [sid|];
        do 2 eexists; (split; [reflexivity|]); simpl; repeat split; auto;
        try (intros; contradiction); try (intros sid' _ [= <-]; reflexivity);
        intros; discriminate.
  - do 2 eexists. split; [reflexivity|]. simpl. auto.
Qed.

Lemma transcode_invalid_preset_witness :
  let episode := mkMedia "/media/e1.mkv" "episode" "Pilot" (Some "s1") in
  let film := mkMedia "/media/film.mkv" "movie" "Film" None in
  let never_job : MediaItem -> string -> unit -> result Job * unit :=
    fun _ _ e => (Raise KeyError, e) in
  let never_start : Job -> MediaItem -> string -> pyval -> unit -> result unit * unit :=
    fun _ _ _ _ e => (Raise KeyError, e) in
  (exists r w',
      transcode (fun _ => Some episode) never_job never_start Cfg.FileAbsent
                "e1" [("preset_name", "ultra")] (mkWorld [] [] tt) = (r, w') /\
      called w' = [] /\
      flashed w' = [("Invalid preset", "message")] /\
      r = Ok (Redirect "ui.show_detail" [("show_id", Some "s1")])) /\
  (exists r w',
      transcode (fun _ => Some film) never_job never_start Cfg.FileAbsent
                "m1" [("preset_name", "ultra")] (mkWorld [] [] tt) = (r, w') /\
      called w' = [] /\
      flashed w' = [("Invalid preset", "message")] /\
      r = Ok (Redirect "ui.media_detail" [("media_id", Some "m1")])).
Proof.
  intros episode film never_job never_start.
  assert (Hload : exists cfg,
             Cfg.load_config Cfg.FileAbsent = Ok cfg /\
             Cfg.presets cfg = Cfg.default_presets)
    by (eexists; split; reflexivity).
  destruct Hload as (cfg & Hload & Hps).
  split.
  - destruct (transcode_invalid_preset unit (fun _ => Some episode) never_job
                never_start Cfg.FileAbsent "e1" [("preset_name", "ultra")]
                (mkWorld [] [] tt) "ultra" cfg _ eq_refl Hload Hps eq_refl)
      as (r & w' & Hrun & Hcalled & _ & Hflash & _ & Hshow).
    exists r, w'. repeat split; try assumption.
    apply (Hshow "s1"); [discriminate|reflexivity].
  - destruct (transcode_invalid_preset unit (fun _ => Some film) never_job
                never_start Cfg.FileAbsent "m1" [("preset_name", "ultra")]
                (mkWorld [] [] tt) "ultra" cfg _ eq_refl Hload Hps eq_refl)
      as (r & w' & Hrun & Hcalled & _ & Hflash & Hmovie & _).
    exists r, w'. repeat split; try assumption.
    apply Hmovie. reflexivity.
Defined.

(** *** [cancel_job] *)

(** C6: whatever the cancel operation answers for the job, the route
    returns normally with a redirect to the jobs page, having flashed "Job
    cancelled successfully" when the answer is true and "Could not cancel
    job" when it is false. *)
Theorem cancel_job_reports :
  forall (E : Type) (cancel_transcode_job : string -> E -> bool * E)
         (job_id : string) (w : world E),
    cancel_job cancel_transcode_job job_id w
    = (Ok (Redirect "ui.jobs" []),
       mkWorld
         (flashed w ++
            [if fst (cancel_transcode_job job_id (engine w))
             then ("Job cancelled successfully", "message")
             else ("Could not cancel job", "error")])
         (called w ++ [CancelJob job_id])
         (snd (cancel_transcode_job job_id (engine w)))).
Proof.
  intros E cancel job_id w. unfold cancel_job. run_route.
  destruct (cancel job_id (engine w)) as [[|] e']; reflexivity.
Qed.

(** With the engine as the design describes it behind the route: cancelling
    a job that has already ended changes nothing and is answered "Could not
    cancel job". *)
Lemma cancel_job_terminal (i : string) (s : Engine.sched) (j : Job)
      (fl : list (string * string)) (cs : list call) :
  Engine.find_job (Engine.registry s) i = Some j ->
  Engine.is_terminal (Engine.status j) = true ->
  cancel_job Engine.cancel_job i (mkWorld fl cs s)
  = (Ok (Redirect "ui.jobs" []),
     mkWorld (fl ++ [("Could not cancel job", "error")]) (cs ++ [CancelJob i]) s).
Proof.
  intros Hf Ht. unfold cancel_job. run_route.
  unfold Engine.cancel_job. rewrite Hf.
  unfold Engine.is_terminal, Engine.is_processing in *.
  apply orb_true_iff in Ht as [Ht|Ht]; [apply orb_true_iff in Ht as [Ht|Ht]|];
    apply String.eqb_eq in Ht; rewrite Ht; reflexivity.
Qed.

(** *** [delete_completed_transcode] *)

(** C7: deletion answers with a pair of a success flag and a message.
    Deleting a filename that is not there fails with a message and leaves
    the store as it was; deleting an entry that is there, and that the
    filesystem lets go, removes the output file and its metadata record.
    Whatever the answer, the delete route flashes its message and redirects
    to the completed page. *)
Theorem delete_completed_transcode_reports :
  (forall (E : Type) (delete_transcode : string -> pyval -> E -> (bool * string) * E)
          config_file (filename : string) (w : world E) (cfg : Cfg.Config),
      Cfg.load_config config_file = Ok cfg ->
      let root := Cfg.transcode_path cfg in
      let answer := fst (delete_transcode filename root (engine w)) in
      delete_completed_transcode delete_transcode config_file filename w
      = (Ok (Redirect "ui.completed" []),
         mkWorld
           (flashed w ++
              [if fst answer
               then ("Transcode deleted: " ++ snd answer, "message")
               else ("Error deleting transcode: " ++ snd answer, "error")])
           (called w ++ [DeleteTranscode filename root])
           (snd (delete_transcode filename root (engine w))))) /\
  (forall (filename : string) (st : Engine.store),
      Engine.mem filename (Engine.artifacts st) = false ->
      exists message,
        Engine.delete_transcode filename st = ((false, message), st) /\
        message <> "") /\
  (forall (filename : string) (st : Engine.store),
      Engine.mem filename (Engine.artifacts st) = true ->
      Engine.mem filename (Engine.locked st) = false ->
      exists message st',
        Engine.delete_transcode filename st = ((true, message), st') /\
        message <> "" /\
        Engine.mem filename (Engine.artifacts st') = false /\
        Engine.mem filename (Engine.sidecars st') = false).
Proof.
  split; [|split].
  - intros E delete_transcode config_file filename w cfg Hload root answer.
    unfold delete_completed_transcode. run_route. rewrite Hload.
    subst answer root.
    destruct (delete_transcode filename (Cfg.transcode_path cfg) (engine w))
      as [[[|] message] e']; reflexivity.
  - intros filename st Hno. eexists.
    split; [apply StoreFacts.delete_transcode_missing; assumption|discriminate].
  - apply StoreFacts.delete_transcode_removes.
Qed.

Lemma delete_completed_transcode_reports_witness :
  let st := Engine.mkStore ["film.mkv"; "show.mkv"] ["film.mkv"] [] in
  let delete := fun filename (_ : pyval) s => Engine.delete_transcode filename s in
  (exists w',
      delete_completed_transcode delete Cfg.FileAbsent "film.mkv" (mkWorld [] [] st)
      = (Ok (Redirect "ui.completed" []), w') /\
      flashed w' = [("Transcode deleted: Removed film.mkv and its metadata", "message")] /\
      Engine.artifacts (engine w') = ["show.mkv"] /\
      Engine.sidecars (engine w') = []) /\
  (exists message,
      Engine.delete_transcode "gone.mkv" st = ((false, message), st) /\
      message <> "") /\
  (exists message st',
      Engine.delete_transcode "show.mkv" st = ((true, message), st') /\
      message <> "" /\
      Engine.mem "show.mkv" (Engine.artifacts st') = false /\
      Engine.mem "show.mkv" (Engine.sidecars st') = false).
Proof.
  intros st delete.
  destruct delete_completed_transcode_reports as (Hroute & Hmissing & Hremoves).
  split; [|split].
  - eexists. split.
    + apply (Hroute Engine.store delete Cfg.FileAbsent "film.mkv"
               (mkWorld [] [] st)). reflexivity.
    + repeat split.
  - apply Hmissing. reflexivity.
  - apply Hremoves; reflexivity.
Defined.

(** *** [download_file] *)

(** C10: with the transcode root of the configuration path-mapped to
    [root], [download_file] sends the file at [root] joined with the
    filename exactly when that path exists, is a regular file, and its real
    path starts with the real path of [root]; otherwise it flashes "File not
    found" or "Invalid file path", redirects to the completed page and sends
    nothing.  No request at all is answered with a file that fails one of
    the three checks. *)
Theorem download_file_guarded :
  (forall (E : Type) apply_output_path_mapping config_file
          (exists_ isfile : string -> bool) (realpath : string -> string)
          (filename : string) (w : world E) (cfg : Cfg.Config) (root : string),
      Cfg.load_config config_file = Ok cfg ->
      apply_output_path_mapping (Cfg.transcode_path cfg) = Ok (PyStr root) ->
      let file_path := path_join root filename in
      let allowed :=
        exists_ file_path && isfile file_path
        && startswith (realpath file_path) (realpath root) in
      download_file apply_output_path_mapping config_file exists_ isfile
                    realpath filename w
      = if allowed
        then (Ok (SendFile file_path true), w)
        else (Ok (Redirect "ui.completed" []),
              mkWorld
                (flashed w ++
                   [(if exists_ file_path && isfile file_path
                     then "Invalid file path" else "File not found",
                     "message")])
                (called w) (engine w))) /\
  (forall (E : Type) apply_output_path_mapping config_file
          (exists_ isfile : string -> bool) (realpath : string -> string)
          (filename : string) (w w' : world E) (sent : string) (att : bool),
      download_file apply_output_path_mapping config_file exists_ isfile
                    realpath filename w = (Ok (SendFile sent att), w') ->
      exists cfg root,
        Cfg.load_config config_file = Ok cfg /\
        apply_output_path_mapping (Cfg.transcode_path cfg) = Ok (PyStr root) /\
        sent = path_join root filename /\
        exists_ sent = true /\
        isfile sent = true /\
        startswith (realpath sent) (realpath root) = true).
Proof.
  split.
  - intros E mapping config_file exists_ isfile realpath filename w cfg root
           Hload Hmap file_path allowed.
    unfold download_file. run_route. rewrite Hload. simpl. rewrite Hmap. simpl.
    subst allowed file_path.
    destruct (exists_ (path_join root filename)); simpl; [|reflexivity].
    destruct (isfile (path_join root filename)); simpl; [|reflexivity].
    destruct (startswith (realpath (path_join root filename)) (realpath root));
      reflexivity.
  - intros E mapping config_file exists_ isfile realpath filename w w' sent att.
    unfold download_file. run_route.
    destruct (Cfg.load_config config_file) as [cfg|e] eqn:Hload; simpl;
      [|discriminate].
    destruct (mapping (Cfg.transcode_path cfg)) as [v|e] eqn:Hmap; simpl;
      [|discriminate].
    destruct v as [| | | | root | |]; simpl; try discriminate.
    destruct (exists_ (path_join root filename)) eqn:Hex; simpl; [|discriminate].
    destruct (isfile (path_join root filename)) eqn:Hfile; simpl; [|discriminate].
    destruct (startswith (realpath (path_join root filename)) (realpath root))
      eqn:Hreal; simpl; [|discriminate].
    intros [= <- <- <-]. exists cfg, root. repeat split; auto.
Qed.

Lemma download_file_guarded_witness :
  let mapping : pyval -> result pyval := fun v => Ok v in
  let on_disk : string -> bool := fun p => (p =? "/transcodes/film.mkv")%string in
  let real : string -> string := fun p => p in
  download_file mapping Cfg.FileAbsent on_disk on_disk real "film.mkv"
                (mkWorld [] [] tt)
  = (Ok (SendFile "/transcodes/film.mkv" true), mkWorld [] [] tt) /\
  download_file mapping Cfg.FileAbsent on_disk on_disk real "other.mkv"
                (mkWorld [] [] tt)
  = (Ok (Redirect "ui.completed" []),
     mkWorld [("File not found", "message")] [] tt) /\
  (exists cfg root,
      Cfg.load_config Cfg.FileAbsent = Ok cfg /\
      mapping (Cfg.transcode_path cfg) = Ok (PyStr root) /\
      "/transcodes/film.mkv" = path_join root "film.mkv" /\
      on_disk "/transcodes/film.mkv" = true /\
      on_disk "/transcodes/film.mkv" = true /\
      startswith (real "/transcodes/film.mkv") (real root) = true).
Proof.
  intros mapping on_disk real.
  destruct download_file_guarded as [Hrun Honly].
  split; [|split].
  - apply (Hrun unit mapping Cfg.FileAbsent on_disk on_disk real "film.mkv"
             (mkWorld [] [] tt) _ "/transcodes" eq_refl eq_refl).
  - apply (Hrun unit mapping Cfg.FileAbsent on_disk on_disk real "other.mkv"
             (mkWorld [] [] tt) _ "/transcodes" eq_refl eq_refl).
  - apply (Honly unit mapping Cfg.FileAbsent on_disk on_disk real "film.mkv"
             (mkWorld [] [] tt) (mkWorld [] [] tt) "/transcodes/film.mkv" true).
    reflexivity.
Defined.

(** *** The jobs page *)

Section Pages.

Variable get_media : string -> option MediaItem.
Variable get_show : string -> option Show.
Variable get_completed_transcodes : pyval -> list transcode_record.
Variable config_file : Cfg.config_file.
Variable exists_ : string -> bool.
Variable getsize : string -> option Z.

Lemma compression_pct_positive (a b : Z) :
  0 < b -> exists pct, compression_pct a b = Ok pct.
Proof.
  intros Hb. unfold compression_pct, truediv.
  destruct (Z.eqb_spec b 0); [lia|]. simpl. eauto.
Qed.

(** The size of a job's row raises nothing but [OSError]. *)
Lemma job_file_size_cases (job : Job) (media_item : MediaItem) :
  (exists text, job_file_size exists_ getsize job media_item = Ok text) \/
  job_file_size exists_ getsize job media_item = Raise OSError.
Proof.
  unfold job_file_size, os_path_getsize.
  destruct (getsize (path media_item)) as [n|]; simpl; [|auto].
  destruct (Engine.output_path job) as [out|]; [|eauto].
  destruct ((Engine.status job =? "completed")%string && nonempty (Some out)
            && exists_ out); [|eauto].
  destruct (getsize out) as [m|]; simpl; [|auto].
  destruct (Z.gtb_spec n 0) as [Hn|Hn]; [|eauto].
  destruct (compression_pct_positive m n) as [pct ->]; [lia|]. simpl. eauto.
Qed.

Lemma job_row_ok (j : Job) :
  exists job_data,
    job_row get_media get_show exists_ getsize j = Ok job_data /\
    job job_data = j.
Proof.
  unfold job_row. destruct (get_media (Engine.media_id j)) as [media_item|].
  - destruct (job_file_size_cases j media_item) as [[text ->]| ->];
      eexists; split; reflexivity.
  - eexists. split; reflexivity.
Qed.

Lemma is_completed_not_active (j : Job) :
  is_completed j = true -> is_active j = false.
Proof.
  unfold is_completed, is_active. intros H.
  apply String.eqb_eq in H. now rewrite H.
Qed.

Lemma categorize_jobs (g : groups) (job_data : job_data) :
  let j := job job_data in
  let g' := categorize g job_data in
  map job (active_jobs g')
  = (map job (active_jobs g) ++ filter is_active [j])%list /\
  map job (completed_jobs g')
  = (map job (completed_jobs g) ++ filter is_completed [j])%list /\
  map job (failed_jobs g')
  = (map job (failed_jobs g) ++ filter is_failed [j])%list.
Proof.
  unfold categorize. simpl. unfold is_failed.
  fold (is_active (job job_data)). fold (is_completed (job job_data)).
  destruct (is_completed (job job_data)) eqn:Hc.
  - rewrite (is_completed_not_active _ Hc). simpl.
    rewrite map_app, !app_nil_r. auto.
  - destruct (is_active (job job_data)); simpl;
      rewrite map_app, !app_nil_r; auto.
Qed.

(** The loop returns, and each list has grown by the jobs of its group, in
    the order of [JOBS]. *)
Lemma jobs_loop_ok (JOBS : list Job) (g : groups) :
  exists g',
    jobs_loop get_media get_show exists_ getsize JOBS g = Ok g' /\
    map job (active_jobs g')
    = (map job (active_jobs g) ++ filter is_active JOBS)%list /\
    map job (completed_jobs g')
    = (map job (completed_jobs g) ++ filter is_completed JOBS)%list /\
    map job (failed_jobs g')
    = (map job (failed_jobs g) ++ filter is_failed JOBS)%list.
Proof.
  revert g. induction JOBS as [|j JOBS IH]; intros g.
  - exists g. simpl. rewrite !app_nil_r. auto.
  - cbn [jobs_loop]. destruct (job_row_ok j) as (d & -> & Hd). cbn [Py.bind].
    destruct (IH (categorize g d)) as (g' & -> & Ha & Hc & Hf).
    destruct (categorize_jobs g d) as (Ha' & Hc' & Hf').
    rewrite Hd in *. exists g'. split; [reflexivity|].
    rewrite Ha, Hc, Hf, Ha', Hc', Hf'. rewrite <- !app_assoc.
    change (j :: JOBS) with ([j] ++ JOBS)%list. rewrite !filter_app. auto.
Qed.

Lemma insert_by_perm {A : Type} (key : A -> nat) (x : A) (l : list A) :
  Permutation (insert_by key x l) (x :: l).
Proof.
  induction l as [|y l IH]; simpl; [reflexivity|].
  destruct (key x <=? key y)%nat; [reflexivity|].
  rewrite IH. apply perm_swap.
Qed.

Lemma sort_by_perm {A : Type} (key : A -> nat) (l : list A) :
  Permutation (sort_by key l) l.
Proof.
  induction l as [|x l IH]; simpl; [reflexivity|].
  rewrite insert_by_perm. now constructor.
Qed.

Lemma groups_perm (JOBS : list Job) :
  Permutation (filter is_active JOBS ++ filter is_completed JOBS
               ++ filter is_failed JOBS)%list JOBS.
Proof.
  induction JOBS as [|j JOBS IH]; simpl; [reflexivity|].
  unfold is_failed at 1.
  destruct (is_completed j) eqn:Hc.
  - rewrite (is_completed_not_active _ Hc). simpl.
    rewrite <- Permutation_middle. now constructor.
  - destruct (is_active j); simpl.
    + now constructor.
    + rewrite app_assoc, <- Permutation_middle, <- app_assoc. now constructor.
Qed.

(** C5: the jobs page is always produced, and it splits the jobs of the
    registry into three groups by status: those processing or pending in
    the active group, those completed in the completed group, every other
    one in the failed group; each job is in exactly one group. *)
Theorem jobs_partition :
  forall JOBS : list Job,
    exists active completed failed,
      jobs get_media get_show exists_ getsize JOBS
      = Ok (JobsPage active completed failed) /\
      Permutation (map job active) (filter is_active JOBS) /\
      map job completed = filter is_completed JOBS /\
      map job failed = filter is_failed JOBS /\
      Permutation (map job active ++ map job completed ++ map job failed)%list
                  JOBS /\
      Forall (fun j => (is_active j, is_completed j, is_failed j)
                       = (true, false, false)
                    \/ (is_active j, is_completed j, is_failed j)
                       = (false, true, false)
                    \/ (is_active j, is_completed j, is_failed j)
                       = (false, false, true)) JOBS.
Proof.
  intros JOBS. unfold jobs.
  destruct (jobs_loop_ok JOBS (mkGroups [] [] [])) as (g & -> & Ha & Hc & Hf).
  simpl in *. do 3 eexists. split; [reflexivity|].
  assert (Hperm : Permutation
            (map job (sort_by
               (fun x => if (Engine.status (job x) =? "processing")%string
                         then 0%nat else 1%nat) (active_jobs g)))
            (filter is_active JOBS)).
  { rewrite <- Ha. apply Permutation_map, sort_by_perm. }
  split; [exact Hperm|]. split; [exact Hc|]. split; [exact Hf|]. split.
  - rewrite Hperm, Hc, Hf. apply groups_perm.
  - apply Forall_forall. intros j _. unfold is_failed.
    destruct (is_completed j) eqn:H1.
    + rewrite (is_completed_not_active _ H1). auto.
    + destruct (is_active j); auto.
Qed.

(** *** The ratio of sizes *)





End Pages.


End UiFacts.

(* ===================================================================== *)
(** ** More on [load_config], and [save_config] *)
(* ===================================================================== *)

Module CfgMoreFacts.

Import Cfg CfgSave.

(** Everything [load_config] returns, in terms of [config_data]. *)
Lemma load_config_fields (f : config_file) (c : Config) :
  load_config f = Ok c ->
  exists cd mp,
    read_config_data f = Ok cd /\
    migrate_media_path cd = Ok mp /\
    c = post_init
          (mkConfig (py_or mp (PyStr "/media"))
             (get_or cd "transcode_path" (PyStr "/transcodes"))
             (get_or cd "ffmpeg_path" (PyStr "/usr/bin/ffmpeg"))
             (get_or cd "ffprobe_path" (PyStr "/usr/bin/ffprobe"))
             (get cd "jellyfin_url") (get cd "jellyfin_api_key")
             (get cd "plex_url") (get cd "plex_token")
             (get_or cd "path_mappings" (PyDict []))
             (get_or cd "presets" default_presets)
             (get_or cd "max_concurrent_jobs" (PyInt 1))
             (get cd "hw_accel") (get cd "hw_device") (get cd "hw_capabilities")
             (get_or cd "enabled_libraries" (PyDict []))
             (get_or cd "log_level" (PyStr "INFO"))).
Proof.
  unfold load_config. intros H.
  destruct (read_config_data f) as [cd|e] eqn:Hcd; simpl in H; [|discriminate].
  destruct (migrate_media_path cd) as [mp|e] eqn:Hmp; simpl in H; [|discriminate].
  injection H as <-. exists cd, mp. auto.
Qed.

Lemma truthy_not_none (v : pyval) : truthy v = true -> none_to_empty v = v.
Proof. destruct v; simpl; congruence. Qed.

Lemma none_to_empty_not_none (v : pyval) : none_to_empty v <> PyNone.
Proof. destruct v; simpl; discriminate. Qed.

Lemma truthy_py_or (a b : pyval) : truthy b = true -> truthy (py_or a b) = true.
Proof. unfold py_or. destruct (truthy a) eqn:Ha; auto. Qed.

(** The presets [read_config_data] leaves in [config_data] are truthy. *)
Lemma read_config_data_presets (f : config_file) (cd : pydict) :
  read_config_data f = Ok cd ->
  truthy (get_or cd "presets" default_presets) = true.
Proof.
  destruct f as [| |doc]; simpl.
  - intros [= <-]. reflexivity.
  - discriminate.
  - destruct doc; try discriminate.
    destruct (negb (contains d "presets") || negb (truthy (get d "presets")))
      eqn:Hno; intros [= <-].
    + unfold get_or. rewrite CfgFacts.lookup_setitem_same. reflexivity.
    + apply orb_false_iff in Hno as [H1 H2].
      apply negb_false_iff in H1, H2.
      unfold get, get_or, contains in *.
      destruct (lookup d "presets"); [assumption|discriminate].
Qed.

Lemma loaded_media_path (f : config_file) (c : Config) :
  load_config f = Ok c -> truthy (media_path c) = true.
Proof.
  intros H. destruct (load_config_fields _ _ H) as (cd & mp & _ & _ & ->).
  simpl. now apply truthy_py_or.
Qed.

Lemma loaded_presets (f : config_file) (c : Config) :
  load_config f = Ok c -> truthy (presets c) = true.
Proof.
  intros H. destruct (load_config_fields _ _ H) as (cd & mp & Hcd & _ & ->).
  simpl. pose proof (read_config_data_presets _ _ Hcd) as Hp.
  now rewrite (truthy_not_none _ Hp).
Qed.

Lemma loaded_dicts (f : config_file) (c : Config) :
  load_config f = Ok c ->
  path_mappings c <> PyNone /\ enabled_libraries c <> PyNone.
Proof.
  intros H. destruct (load_config_fields _ _ H) as (cd & mp & _ & _ & ->).
  simpl. split; apply none_to_empty_not_none.
Qed.

(** X1: whatever the file, a [Config] that [load_config] returns has a
    truthy [media_path] and truthy [presets], and its [path_mappings] and
    [enabled_libraries] are not [None]. *)
Theorem load_config_never_empty :
  forall (f : config_file) (c : Config),
    load_config f = Ok c ->
    truthy (media_path c) = true /\
    truthy (presets c) = true /\
    path_mappings c <> PyNone /\
    enabled_libraries c <> PyNone.
Proof.
  intros f c H. split; [|split].
  - exact (loaded_media_path f c H).
  - exact (loaded_presets f c H).
  - exact (loaded_dicts f c H).
Qed.

Lemma load_config_never_empty_witness :
  exists c,
    load_config (FileJson (PyDict [("media_path", PyStr "");
                                   ("presets", PyDict []);
                                   ("path_mappings", PyNone)])) = Ok c /\
    truthy (media_path c) = true /\
    truthy (presets c) = true /\
    path_mappings c <> PyNone /\
    enabled_libraries c <> PyNone.
Proof.
  eexists. split; [reflexivity|].
  apply (load_config_never_empty
           (FileJson (PyDict [("media_path", PyStr "");
                              ("presets", PyDict []);
                              ("path_mappings", PyNone)]))).
  reflexivity.
Defined.

Lemma load_config_dict_migrate (d : pydict) :
  load_config (FileJson (PyDict d))
  = (cd <- read_config_data (FileJson (PyDict d)) ;;
     mp <- migrate_media_path d ;;
     Ok (post_init
          (mkConfig (py_or mp (PyStr "/media"))
             (get_or cd "transcode_path" (PyStr "/transcodes"))
             (get_or cd "ffmpeg_path" (PyStr "/usr/bin/ffmpeg"))
             (get_or cd "ffprobe_path" (PyStr "/usr/bin/ffprobe"))
             (get cd "jellyfin_url") (get cd "jellyfin_api_key")
             (get cd "plex_url") (get cd "plex_token")
             (get_or cd "path_mappings" (PyDict []))
             (get_or cd "presets" default_presets)
             (get_or cd "max_concurrent_jobs" (PyInt 1))
             (get cd "hw_accel") (get cd "hw_device") (get cd "hw_capabilities")
             (get_or cd "enabled_libraries" (PyDict []))
             (get_or cd "log_level" (PyStr "INFO"))))).
Proof.
  unfold load_config. simpl.
  destruct (negb (contains d "presets") || negb (truthy (get d "presets")));
    simpl; [rewrite CfgFacts.migrate_setitem_presets|]; reflexivity.
Qed.

(** From the file on: a JSON object gives a [Config] exactly when the
    [media_paths] migration has nothing to raise on; otherwise the exception
    is [TypeError], or [KeyError] for an object. *)
Theorem load_config_returns_iff :
  forall d : pydict,
    ((exists c, load_config (FileJson (PyDict d)) = Ok c)
     <-> migration_succeeds d = true) /\
    (migration_succeeds d = false ->
     load_config (FileJson (PyDict d)) = Raise TypeError \/
     load_config (FileJson (PyDict d)) = Raise KeyError).
Proof.
  intros d. rewrite load_config_dict_migrate.
  assert (Hread : exists cd, read_config_data (FileJson (PyDict d)) = Ok cd).
  { simpl. destruct (negb (contains d "presets") || negb (truthy (get d "presets")));
      eauto. }
  destruct Hread as [cd ->]. simpl.
  unfold migration_succeeds, migrate_media_path.
  destruct (truthy (get d "media_path")); simpl.
  { split; [split; eauto|discriminate]. }
  destruct (contains d "media_paths"); simpl.
  2:{ split; [split; eauto|discriminate]. }
  destruct (truthy (get d "media_paths")) eqn:Ht; simpl.
  2:{ split; [split; eauto|discriminate]. }
  destruct (get d "media_paths") as [| | | |[|a s]|[|x l]|]; simpl in *;
    try discriminate;
    (split; [split; [intros [c Hc]; discriminate|discriminate]|auto])
    || (split; [split; eauto|discriminate]).
Qed.

Lemma load_config_returns_iff_witness :
  (exists c, load_config (FileJson (PyDict [("media_paths", PyList [PyStr "/a"])])) = Ok c) /\
  (load_config (FileJson (PyDict [("media_paths", PyBool true)])) = Raise TypeError \/
   load_config (FileJson (PyDict [("media_paths", PyBool true)])) = Raise KeyError).
Proof.
  split.
  - apply (proj1 (load_config_returns_iff [("media_paths", PyList [PyStr "/a"])])).
    reflexivity.
  - apply (proj2 (load_config_returns_iff [("media_paths", PyBool true)])).
    reflexivity.
Defined.

(** X3: a truthy [media_path] is what the [Config] gets, whatever
    [media_paths] holds; with no truthy [media_path], a [media_paths] list
    gives its first element, or ["/media"] when that element is falsy. *)
Theorem load_config_media_path :
  forall d : pydict,
    (truthy (get d "media_path") = true ->
     exists c, load_config (FileJson (PyDict d)) = Ok c /\
               media_path c = get d "media_path") /\
    (forall x l,
        truthy (get d "media_path") = false ->
        get d "media_paths" = PyList (x :: l) ->
        exists c, load_config (FileJson (PyDict d)) = Ok c /\
                  media_path c = py_or x (PyStr "/media")).
Proof.
  intros d. rewrite load_config_dict_migrate.
  assert (Hread : exists cd, read_config_data (FileJson (PyDict d)) = Ok cd).
  { simpl. destruct (negb (contains d "presets") || negb (truthy (get d "presets")));
      eauto. }
  destruct Hread as [cd ->]. simpl. unfold migrate_media_path. split.
  - intros Ht. rewrite Ht. simpl. eexists. split; [reflexivity|]. simpl.
    unfold py_or. now rewrite Ht.
  - intros x l Ht Hl. rewrite Ht, Hl. simpl.
    assert (Hc : contains d "media_paths" = true).
    { unfold get, get_or, contains in *.
      destruct (lookup d "media_paths"); [reflexivity|discriminate]. }
    rewrite Hc. simpl. eexists. split; reflexivity.
Qed.

Lemma load_config_media_path_witness :
  (exists c,
      load_config (FileJson (PyDict [("media_path", PyStr "/films");
                                     ("media_paths", PyInt 5)])) = Ok c /\
      media_path c = PyStr "/films") /\
  (exists c,
      load_config (FileJson (PyDict [("media_paths",
                                      PyList [PyStr "/a"; PyStr "/b"])])) = Ok c /\
      media_path c = PyStr "/a").
Proof.
  split.
  - apply (proj1 (load_config_media_path
                    [("media_path", PyStr "/films"); ("media_paths", PyInt 5)])).
    reflexivity.
  - apply (proj2 (load_config_media_path
                    [("media_paths", PyList [PyStr "/a"; PyStr "/b"])])
                 (PyStr "/a") [PyStr "/b"]); reflexivity.
Defined.

(** Rewrites the lookups of [d] at known keys into those of [d']. *)
Ltac agree_on H d :=
  repeat match goal with
         | |- context [lookup d ?k] =>
             rewrite (H k) by (unfold known_keys; simpl; tauto)
         end.

(** X4: [load_config] depends on the document only through the seventeen
    keys it reads: two objects that agree on them load alike, whatever else
    they hold. *)
Theorem load_config_known_keys :
  forall d d' : pydict,
    (forall k, In k known_keys -> lookup d k = lookup d' k) ->
    load_config (FileJson (PyDict d)) = load_config (FileJson (PyDict d')).
Proof.
  intros d d' H.
  assert (Hcond : negb (contains d "presets") || negb (truthy (get d "presets"))
                  = negb (contains d' "presets") || negb (truthy (get d' "presets"))).
  { unfold contains, get, get_or. agree_on H d. reflexivity. }
  assert (Hmig : migrate_media_path d = migrate_media_path d').
  { unfold migrate_media_path, get, get_or, contains. agree_on H d. reflexivity. }
  rewrite !load_config_dict_migrate. unfold read_config_data.
  rewrite Hcond, Hmig.
  destruct (negb (contains d' "presets") || negb (truthy (get d' "presets")));
    cbn [Py.bind]; unfold get, get_or.
  - rewrite !CfgFacts.lookup_setitem_same.
    rewrite !CfgFacts.lookup_setitem_other by discriminate.
    agree_on H d. reflexivity.
  - agree_on H d. reflexivity.
Qed.

Lemma load_config_known_keys_witness :
  load_config (FileJson (PyDict [("max_concurrent_jobs", PyInt 4)]))
  = load_config (FileJson (PyDict [("theme", PyStr "dark");
                                   ("max_concurrent_jobs", PyInt 4)])).
Proof.
  apply load_config_known_keys.
  intros k Hk. unfold known_keys in Hk. simpl in Hk.
  repeat (destruct Hk as [<-|Hk]; [reflexivity|]). contradiction.
Defined.

(** *** [save_config] followed by [load_config] *)

(** What [load_config] makes of a file [save_config] wrote, field by
    field. *)
Lemma reload_fields (c : Config) :
  exists c',
    load_config (saved_file c) = Ok c' /\
    media_path c' = py_or (media_path c) (PyStr "/media") /\
    presets c' = (if truthy (presets c) then presets c else default_presets) /\
    path_mappings c' = none_to_empty (path_mappings c) /\
    enabled_libraries c' = none_to_empty (enabled_libraries c) /\
    (transcode_path c' = transcode_path c /\
     ffmpeg_path c' = ffmpeg_path c /\
     ffprobe_path c' = ffprobe_path c /\
     max_concurrent_jobs c' = max_concurrent_jobs c /\
     hw_accel c' = hw_accel c /\
     hw_device c' = hw_device c /\
     hw_capabilities c' = hw_capabilities c /\
     log_level c' = log_level c) /\
    jellyfin_url c' = (if has_jellyfin c then jellyfin_url c else PyNone) /\
    jellyfin_api_key c'
    = (if has_jellyfin c then jellyfin_api_key c else PyNone) /\
    plex_url c' = (if has_jellyfin c then PyNone
                   else if has_plex c then plex_url c else PyNone) /\
    plex_token c' = (if has_jellyfin c then PyNone
                     else if has_plex c then plex_token c else PyNone).
Proof.
  unfold saved_file, save_config, has_jellyfin, has_plex.
  destruct (truthy (py_and (jellyfin_url c) (jellyfin_api_key c)));
    [|destruct (truthy (py_and (plex_url c) (plex_token c)))];
    unfold load_config; cbn;
    destruct (truthy (presets c)) eqn:Hp; cbn;
    unfold migrate_media_path; cbn; rewrite andb_false_r; cbn;
    (eexists; split; [reflexivity|]); cbn;
    try rewrite (truthy_not_none _ Hp); repeat split; reflexivity.
Qed.

(** X5: [save_config] writes the settings of one media server at most:
    Jellyfin's when both its values are truthy, otherwise Plex's when both
    of those are, otherwise none. *)
Theorem save_config_one_server :
  forall c : Config,
    let d := save_config c in
    contains d "jellyfin_url" = has_jellyfin c /\
    contains d "jellyfin_api_key" = has_jellyfin c /\
    contains d "plex_url" = negb (has_jellyfin c) && has_plex c /\
    contains d "plex_token" = negb (has_jellyfin c) && has_plex c /\
    contains d "jellyfin_url" && contains d "plex_url" = false.
Proof.
  intros c. unfold save_config, has_jellyfin, has_plex.
  destruct (truthy (py_and (jellyfin_url c) (jellyfin_api_key c)));
    [|destruct (truthy (py_and (plex_url c) (plex_token c)))];
    repeat split.
Qed.

(** From the file on: what [save_config] wrote gives a [Config], with
    these fields as they were. *)
Theorem save_then_load :
  forall c : Config,
    exists c',
      load_config (saved_file c) = Ok c' /\
      transcode_path c' = transcode_path c /\
      ffmpeg_path c' = ffmpeg_path c /\
      ffprobe_path c' = ffprobe_path c /\
      max_concurrent_jobs c' = max_concurrent_jobs c /\
      hw_accel c' = hw_accel c /\
      hw_device c' = hw_device c /\
      hw_capabilities c' = hw_capabilities c /\
      log_level c' = log_level c /\
      path_mappings c' = none_to_empty (path_mappings c) /\
      enabled_libraries c' = none_to_empty (enabled_libraries c).
Proof.
  intros c.
  destruct (reload_fields c)
    as (c' & Hload & _ & _ & Hpm & Hel & (H1 & H2 & H3 & H4 & H5 & H6 & H7 & H8) & _).
  exists c'. repeat split; assumption.
Qed.

(** X7: saving what was loaded and loading it again returns: the second
    [Config] differs from the first in the server settings at most. *)
Theorem load_save_load :
  forall (f : config_file) (c : Config),
    load_config f = Ok c ->
    exists c',
      load_config (saved_file c) = Ok c' /\
      media_path c' = media_path c /\
      transcode_path c' = transcode_path c /\
      ffmpeg_path c' = ffmpeg_path c /\
      ffprobe_path c' = ffprobe_path c /\
      path_mappings c' = path_mappings c /\
      presets c' = presets c /\
      max_concurrent_jobs c' = max_concurrent_jobs c /\
      hw_accel c' = hw_accel c /\
      hw_device c' = hw_device c /\
      hw_capabilities c' = hw_capabilities c /\
      enabled_libraries c' = enabled_libraries c /\
      log_level c' = log_level c.
Proof.
  intros f c H.
  pose proof (loaded_media_path f c H) as Hmp.
  pose proof (loaded_presets f c H) as Hps.
  destruct (loaded_dicts f c H) as (Hpm & Hel).
  destruct (reload_fields c)
    as (c' & Hload & Hm & Hp & Hpm' & Hel'
        & (H1 & H2 & H3 & H4 & H5 & H6 & H7 & H8) & _).
  exists c'. rewrite Hps in Hp. unfold py_or in Hm. rewrite Hmp in Hm.
  assert (Hn : forall v, v <> PyNone -> none_to_empty v = v)
    by (intros [] Hv; simpl; congruence).
  rewrite (Hn _ Hpm) in Hpm'. rewrite (Hn _ Hel) in Hel'.
  repeat split; assumption.
Qed.

Lemma load_save_load_witness :
  exists c c',
    load_config FileAbsent = Ok c /\
    load_config (saved_file c) = Ok c' /\
    presets c' = presets c /\
    max_concurrent_jobs c' = max_concurrent_jobs c.
Proof.
  eexists.
  destruct (load_save_load FileAbsent _ eq_refl)
    as (c' & Hload & _ & _ & _ & _ & _ & Hp & Hm & _).
  exists c'. repeat split; assumption.
Defined.

Lemma reload_unique (c c1 c2 : Config) :
  load_config (saved_file c) = Ok c1 ->
  load_config (saved_file c) = Ok c2 -> c1 = c2.
Proof. congruence. Qed.

(** The server settings after a save and a reload. *)
Lemma reload_servers (c c' : Config) :
  load_config (saved_file c) = Ok c' ->
  jellyfin_url c' = (if has_jellyfin c then jellyfin_url c else PyNone) /\
  jellyfin_api_key c' = (if has_jellyfin c then jellyfin_api_key c else PyNone) /\
  plex_url c' = (if has_jellyfin c then PyNone
                 else if has_plex c then plex_url c else PyNone) /\
  plex_token c' = (if has_jellyfin c then PyNone
                   else if has_plex c then plex_token c else PyNone).
Proof.
  intros H. destruct (reload_fields c) as (c0 & H0 & _ & _ & _ & _ & _ & Hs).
  now rewrite (reload_unique _ _ _ H H0).
Qed.

(** The choice of server is the same after a save and a reload. *)
Lemma reload_has_server (c c' : Config) :
  load_config (saved_file c) = Ok c' ->
  has_jellyfin c' = has_jellyfin c /\
  has_plex c' = negb (has_jellyfin c) && has_plex c.
Proof.
  intros H. destruct (reload_servers _ _ H) as (Hju & Hjk & Hpu & Hpt).
  unfold has_jellyfin, has_plex in *. rewrite Hju, Hjk, Hpu, Hpt.
  destruct (truthy (py_and (jellyfin_url c) (jellyfin_api_key c))) eqn:HJ;
    [auto|].
  destruct (truthy (py_and (plex_url c) (plex_token c))) eqn:HP; auto.
Qed.

(** X8: a save and a reload keep one media server at most.  With Jellyfin
    configured its settings come back and those of Plex are lost; otherwise,
    with Plex configured, its settings come back and those of Jellyfin are
    [None]; with neither, all four are [None]. *)
Theorem reload_one_server :
  forall c c' : Config,
    load_config (saved_file c) = Ok c' ->
    (has_jellyfin c = true ->
     jellyfin_url c' = jellyfin_url c /\
     jellyfin_api_key c' = jellyfin_api_key c /\
     plex_url c' = PyNone /\ plex_token c' = PyNone) /\
    (has_jellyfin c = false -> has_plex c = true ->
     plex_url c' = plex_url c /\
     plex_token c' = plex_token c /\
     jellyfin_url c' = PyNone /\ jellyfin_api_key c' = PyNone) /\
    (has_jellyfin c = false -> has_plex c = false ->
     jellyfin_url c' = PyNone /\ jellyfin_api_key c' = PyNone /\
     plex_url c' = PyNone /\ plex_token c' = PyNone).
Proof.
  intros c c' H. destruct (reload_servers _ _ H) as (Hju & Hjk & Hpu & Hpt).
  rewrite Hju, Hjk, Hpu, Hpt.
  split; [|split].
  - intros ->. auto.
  - intros -> ->. auto.
  - intros -> ->. auto.
Qed.

Lemma reload_one_server_witness :
  let c := mkConfig (PyStr "/media") (PyStr "/transcodes") (PyStr "ffmpeg")
             (PyStr "ffprobe") (PyStr "http://jf") (PyStr "key")
             (PyStr "http://plex") (PyStr "token") (PyDict [])
             default_presets (PyInt 1) PyNone PyNone PyNone (PyDict [])
             (PyStr "INFO") in
  exists c',
    load_config (saved_file c) = Ok c' /\
    jellyfin_url c' = PyStr "http://jf" /\
    jellyfin_api_key c' = PyStr "key" /\
    plex_url c' = PyNone /\ plex_token c' = PyNone.
Proof.
  intros c. eexists. split; [reflexivity|].
  apply (proj1 (reload_one_server c _ eq_refl)). reflexivity.
Defined.

Lemma config_ext (a b : Config) :
  media_path a = media_path b -> transcode_path a = transcode_path b ->
  ffmpeg_path a = ffmpeg_path b -> ffprobe_path a = ffprobe_path b ->
  jellyfin_url a = jellyfin_url b -> jellyfin_api_key a = jellyfin_api_key b ->
  plex_url a = plex_url b -> plex_token a = plex_token b ->
  path_mappings a = path_mappings b -> presets a = presets b ->
  max_concurrent_jobs a = max_concurrent_jobs b ->
  hw_accel a = hw_accel b -> hw_device a = hw_device b ->
  hw_capabilities a = hw_capabilities b ->
  enabled_libraries a = enabled_libraries b -> log_level a = log_level b ->
  a = b.
Proof. destruct a, b. simpl. intros. subst. reflexivity. Qed.

(** X9: one save and reload is enough: saving the reloaded [Config] and
    loading it once more gives that same [Config]. *)
Theorem reload_fixed_point :
  forall c c1 : Config,
    load_config (saved_file c) = Ok c1 ->
    load_config (saved_file c1) = Ok c1.
Proof.
  intros c c1 H.
  pose proof (loaded_media_path _ _ H) as Hmp.
  pose proof (loaded_presets _ _ H) as Hps.
  destruct (loaded_dicts _ _ H) as (Hpm & Hel).
  destruct (reload_fields c1)
    as (c2 & H2 & Hm & Hp & Hpm' & Hel'
        & (F1 & F2 & F3 & F4 & F5 & F6 & F7 & F8) & _).
  destruct (reload_servers _ _ H2) as (Hju & Hjk & Hpu & Hpt).
  destruct (reload_has_server _ _ H) as (HJ & HP).
  destruct (reload_servers _ _ H) as (Hju1 & Hjk1 & Hpu1 & Hpt1).
  rewrite H2. f_equal.
  assert (Hn : forall v, v <> PyNone -> none_to_empty v = v)
    by (intros [] Hv; simpl; congruence).
  rewrite Hps in Hp. unfold py_or in Hm. rewrite Hmp in Hm.
  rewrite (Hn _ Hpm) in Hpm'. rewrite (Hn _ Hel) in Hel'.
  apply config_ext; try assumption.
  - rewrite Hju, HJ, Hju1. now destruct (has_jellyfin c).
  - rewrite Hjk, HJ, Hjk1. now destruct (has_jellyfin c).
  - rewrite Hpu, HJ, HP, Hpu1. destruct (has_jellyfin c); [reflexivity|].
    now destruct (has_plex c).
  - rewrite Hpt, HJ, HP, Hpt1. destruct (has_jellyfin c); [reflexivity|].
    now destruct (has_plex c).
Qed.

Lemma reload_fixed_point_witness :
  exists c1,
    load_config (saved_file (post_init (mkConfig PyNone PyNone PyNone PyNone
                   (PyStr "http://jf") (PyStr "") (PyStr "http://plex")
                   (PyStr "token") PyNone PyNone PyNone PyNone PyNone PyNone
                   PyNone PyNone))) = Ok c1 /\
    load_config (saved_file c1) = Ok c1.
Proof.
  eexists. split; [reflexivity|].
  apply (reload_fixed_point
           (post_init (mkConfig PyNone PyNone PyNone PyNone
                   (PyStr "http://jf") (PyStr "") (PyStr "http://plex")
                   (PyStr "token") PyNone PyNone PyNone PyNone PyNone PyNone
                   PyNone PyNone))).
  reflexivity.
Defined.

End CfgMoreFacts.

(* ===================================================================== *)
(** ** Properties of [squishy/app.py] *)
(* ===================================================================== *)

Module AppFacts.

Import Cfg CfgSave App.

(** X10: saving a [Config] and loading it again does not change the scan
    [perform_initial_scan] starts: the server [save_config] keeps is the
    server that is scanned, Jellyfin before Plex. *)
Theorem scan_survives_reload :
  forall c c' : Config,
    load_config (saved_file c) = Ok c' ->
    perform_initial_scan c' = perform_initial_scan c.
Proof.
  intros c c' H.
  destruct (CfgMoreFacts.reload_servers _ _ H) as (Hju & Hjk & Hpu & Hpt).
  destruct (CfgMoreFacts.reload_has_server _ _ H) as (HJ & HP).
  unfold perform_initial_scan.
  fold (has_jellyfin c') (has_plex c') (has_jellyfin c) (has_plex c).
  rewrite HJ, HP, Hju, Hjk, Hpu, Hpt.
  destruct (has_jellyfin c); [reflexivity|]. simpl.
  destruct (has_plex c); reflexivity.
Qed.

Lemma scan_survives_reload_witness :
  let c := mkConfig (PyStr "/media") (PyStr "/transcodes") (PyStr "ffmpeg")
             (PyStr "ffprobe") (PyStr "") (PyStr "key")
             (PyStr "http://plex") (PyStr "token") (PyDict [])
             default_presets (PyInt 1) PyNone PyNone PyNone (PyDict [])
             (PyStr "INFO") in
  exists c',
    load_config (saved_file c) = Ok c' /\
    perform_initial_scan c' = ScanPlex (PyStr "http://plex") (PyStr "token").
Proof.
  intros c. eexists. split; [reflexivity|].
  apply (scan_survives_reload c). reflexivity.
Defined.

Lemma truthy_py_or_orb (a b : pyval) :
  truthy (py_or a b) = truthy a || truthy b.
Proof. unfold py_or. destruct (truthy a) eqn:Ha; simpl; auto. Qed.

(** X11: requests for static files, the onboarding pages, the API and the
    socket pass the hook untouched: no redirect, the session as it was, the
    config file not read, on the first run as on any other. *)
Theorem check_first_run_exempt :
  forall (first_run : bool) (f : config_file) (path : string)
         (session : option pyval),
    startswith path "/static" || startswith path "/onboarding"
    || startswith path "/api" || startswith path "/socket.io" = true ->
    check_first_run first_run f path session = Ok (None, session).
Proof.
  intros first_run f path session H. unfold check_first_run.
  destruct (startswith path "/static" || startswith path "/onboarding");
    [reflexivity|].
  destruct (startswith path "/api"); [reflexivity|].
  destruct (startswith path "/socket.io"); [reflexivity|discriminate].
Qed.

Lemma check_first_run_exempt_witness :
  check_first_run true FileMalformed "/api/jobs" (Some (PyBool true))
  = Ok (None, Some (PyBool true)).
Proof. apply check_first_run_exempt. reflexivity. Defined.

(** X12: on the first run every other request is redirected to the
    onboarding page; the session is not changed and the config file is not
    read. *)
Theorem check_first_run_redirects :
  forall (f : config_file) (path : string) (session : option pyval),
    startswith path "/static" || startswith path "/onboarding"
    || startswith path "/api" || startswith path "/socket.io" = false ->
    check_first_run true f path session
    = Ok (Some (Ui.Redirect "onboarding.index" []), session).
Proof.
  intros f path session H. unfold check_first_run.
  apply orb_false_iff in H as [H H4]. apply orb_false_iff in H as [H H3].
  rewrite H, H3, H4. apply orb_false_iff in H as [_ H2]. simpl.
  now rewrite H2.
Qed.

Lemma check_first_run_redirects_witness :
  check_first_run true FileMalformed "/jobs" None
  = Ok (Some (Ui.Redirect "onboarding.index" []), None).
Proof. apply check_first_run_redirects. reflexivity. Defined.

(** X13: after the first run, a request that is not exempt passes when the
    session has no onboarding flag, without the config file being read.
    With the flag set the config is loaded: a configured server clears the
    flag and lets the request pass, no server keeps the flag and redirects
    to the onboarding page, and a config that fails to load fails the
    request. *)
Theorem check_first_run_after :
  forall (f : config_file) (path : string) (session : option pyval),
    startswith path "/static" || startswith path "/onboarding"
    || startswith path "/api" || startswith path "/socket.io" = false ->
    let active := match session with Some v => truthy v | None => false end in
    (active = false -> check_first_run false f path session = Ok (None, session)) /\
    (forall c,
        active = true -> load_config f = Ok c ->
        check_first_run false f path session
        = if has_jellyfin c || has_plex c
          then Ok (None, None)
          else Ok (Some (Ui.Redirect "onboarding.index" []), session)) /\
    (forall e,
        active = true -> load_config f = Raise e ->
        check_first_run false f path session = Raise e).
Proof.
  intros f path session H active. unfold check_first_run.
  apply orb_false_iff in H as [H H4]. apply orb_false_iff in H as [H H3].
  rewrite H, H3, H4. apply orb_false_iff in H as [_ H2]. fold active.
  split; [|split].
  - intros ->. reflexivity.
  - intros c -> Hload. simpl. rewrite Hload. simpl.
    rewrite truthy_py_or_orb. fold (has_jellyfin c) (has_plex c).
    destruct (has_jellyfin c || has_plex c); simpl; [reflexivity|].
    now rewrite H2.
  - intros e -> Hload. simpl. now rewrite Hload.
Qed.

Lemma check_first_run_after_witness :
  check_first_run false FileMalformed "/jobs" None = Ok (None, None) /\
  check_first_run false FileAbsent "/jobs" (Some (PyBool true))
  = Ok (Some (Ui.Redirect "onboarding.index" []), Some (PyBool true)) /\
  check_first_run false FileMalformed "/jobs" (Some (PyBool true))
  = Raise JSONDecodeError.
Proof.
  split; [|split].
  - apply (proj1 (check_first_run_after FileMalformed "/jobs" None eq_refl)).
    reflexivity.
  - apply (proj1 (proj2 (check_first_run_after FileAbsent "/jobs"
                           (Some (PyBool true)) eq_refl)) _ eq_refl eq_refl).
  - apply (proj2 (proj2 (check_first_run_after FileMalformed "/jobs"
                           (Some (PyBool true)) eq_refl))); reflexivity.
Defined.

End AppFacts.

(* ===================================================================== *)
(** ** More on the routes *)
(* ===================================================================== *)

Module UiMoreFacts.

Import Ui UiMore.

(** *** [format_file_size] *)

Lemma round_hundredths_near (num den : Z) :
  0 < den ->
  - den <= 2 * (100 * num - round_hundredths num den * den) <= den.
Proof.
  intros Hden. unfold round_hundredths. cbv zeta.
  pose proof (Z.div_mod (num * 100) den ltac:(lia)) as Hdm.
  pose proof (Z.mod_pos_bound (num * 100) den Hden) as Hr.
  set (q := num * 100 / den) in *. set (r := (num * 100) mod den) in *.
  destruct (Z.ltb_spec (2 * r) den); [nia|].
  destruct (Z.ltb_spec den (2 * r)); [nia|].
  destruct (Z.even q); nia.
Qed.

(** The hundredths shown lie between two integers that enclose the
    quotient. *)
Lemma round_hundredths_between (num den lo hi : Z) :
  0 < den ->
  lo * den <= 100 * num <= hi * den ->
  lo <= round_hundredths num den <= hi.
Proof.
  intros Hden H. pose proof (round_hundredths_near num den Hden) as Hn.
  nia.
Qed.

Lemma quotient_hundredths (b u : Z) :
  0 < u ->
  round_hundredths (Qnum (inject_Z b / inject_Z u))
                   (Zpos (Qden (inject_Z b / inject_Z u)))
  = round_hundredths b u.
Proof.
  intros Hu. destruct u as [|p|p]; try lia.
  unfold Qdiv, Qmult, Qinv, inject_Z. simpl. now rewrite Z.mul_1_r.
Qed.

(** X14: for a size below 2^53 bytes, the figure [format_file_size] prints
    is [round(size / unit, 2)], within half a hundredth of the quotient.
    Below 1 MiB it is in KB and at most 1024.0; from 1 MiB and below 1 GiB
    it is in MB, at least 1.0 and at most 1024.0; from 1 GiB it is in GB and
    at least 1.0.  The bound is reached: the last five bytes below 1 MiB
    are shown as 1024.0 KB. *)
Theorem format_file_size_units :
  forall b : Z,
    0 <= b < 2 ^ 53 ->
    let h := format_file_size b in
    let n := shown_hundredths h in
    (quantity h * inject_Z (unit_bytes h) == inject_Z b)%Q /\
    - unit_bytes h <= 2 * (100 * b - n * unit_bytes h) <= unit_bytes h /\
    (b < 1024 * 1024 ->
     (exists x, h = KB x) /\ 0 <= n <= 102400) /\
    (1024 * 1024 <= b < 1024 * 1024 * 1024 ->
     (exists x, h = MB x) /\ 100 <= n <= 102400) /\
    (1024 * 1024 * 1024 <= b ->
     (exists x, h = GB x) /\ 100 <= n) /\
    (1048571 <= b < 1024 * 1024 ->
     (exists x, h = KB x) /\ n = 102400).
Proof.
  intros b Hb h n. subst n h. unfold format_file_size.
  destruct (Z.ltb_spec b (1024 * 1024)) as [H1|H1];
    [|destruct (Z.ltb_spec b (1024 * 1024 * 1024)) as [H2|H2]];
    (split; [unfold Qeq, Qdiv, Qmult, Qinv, inject_Z; simpl; lia|]);
    unfold shown_hundredths; cbn [quantity unit_bytes];
    rewrite quotient_hundredths by lia.
  - pose proof (round_hundredths_near b 1024 ltac:(lia)) as Hnear.
    repeat split; intros; try lia; eauto.
  - pose proof (round_hundredths_near b (1024 * 1024) ltac:(lia)) as Hnear.
    repeat split; intros; try lia; eauto.
  - pose proof (round_hundredths_near b (1024 * 1024 * 1024) ltac:(lia)) as Hnear.
    repeat split; intros; try lia; eauto.
Qed.

Lemma format_file_size_units_witness :
  (exists x, format_file_size 5242880 = MB x) /\
  100 <= shown_hundredths (format_file_size 5242880) <= 102400.
Proof.
  apply (proj1 (proj2 (proj2 (proj2 (format_file_size_units 5242880
                                       ltac:(lia)))))).
  lia.
Defined.

(** *** The order of the active jobs *)

Lemma filter_map_comm {A B : Type} (f : A -> B) (p : B -> bool) (l : list A) :
  filter p (map f l) = map f (filter (fun x => p (f x)) l).
Proof.
  induction l as [|x l IH]; simpl; [reflexivity|].
  destruct (p (f x)); simpl; now rewrite IH.
Qed.

Lemma filter_twice {A : Type} (p q : A -> bool) (l : list A) :
  filter p (filter q l) = filter (fun x => q x && p x) l.
Proof.
  induction l as [|x l IH]; simpl; [reflexivity|].
  destruct (q x); simpl; [destruct (p x)|]; now rewrite IH.
Qed.

Lemma insert_by_first {A : Type} (p : A -> bool) (x : A) (l : list A) :
  p x = true ->
  insert_by (fun y => if p y then 0%nat else 1%nat) x l = x :: l.
Proof. intros Hx. destruct l; simpl; [reflexivity|]. now rewrite Hx. Qed.

Lemma insert_by_second {A : Type} (p : A -> bool) (x : A) (l1 l2 : list A) :
  p x = false ->
  Forall (fun y => p y = true) l1 ->
  Forall (fun y => p y = false) l2 ->
  insert_by (fun y => if p y then 0%nat else 1%nat) x (l1 ++ l2)
  = (l1 ++ x :: l2)%list.
Proof.
  intros Hx H1 H2. induction H1 as [|y l1 Hy H1 IH]; simpl.
  - destruct H2 as [|y l2 Hy H2]; simpl; [reflexivity|]. now rewrite Hx, Hy.
  - rewrite Hx, Hy. simpl. now rewrite IH.
Qed.

(** A stable sort on a key with two values puts the first class before the
    second and keeps the order inside each. *)
Lemma sort_by_two {A : Type} (p : A -> bool) (l : list A) :
  sort_by (fun y => if p y then 0%nat else 1%nat) l
  = (filter p l ++ filter (fun y => negb (p y)) l)%list.
Proof.
  induction l as [|x l IH]; simpl; [reflexivity|]. rewrite IH.
  destruct (p x) eqn:Hx; simpl.
  - now apply insert_by_first.
  - apply insert_by_second; [assumption| |];
      apply Forall_forall; intros y Hy; apply filter_In in Hy as [_ Hy];
      [assumption|now apply negb_true_iff].
Qed.

(** X15: the active group of the jobs page lists every processing job
    before every pending job, and within each of the two keeps the order of
    the registry. *)
Theorem jobs_active_order :
  forall get_media get_show exists_ getsize (JOBS : list Job),
    exists active completed failed,
      jobs get_media get_show exists_ getsize JOBS
      = Ok (JobsPage active completed failed) /\
      map job active
      = (filter is_processing_job JOBS ++ filter is_pending_job JOBS)%list.
Proof.
  intros get_media get_show exists_ getsize JOBS. unfold jobs.
  destruct (UiFacts.jobs_loop_ok get_media get_show exists_ getsize JOBS
              (mkGroups [] [] [])) as (g & -> & Ha & _).
  simpl in *. do 3 eexists. split; [reflexivity|].
  rewrite (sort_by_two (fun x => (Engine.status (job x) =? "processing")%string)).
  rewrite map_app.
  rewrite <- (filter_map_comm job is_processing_job).
  rewrite <- (filter_map_comm job (fun j => negb (is_processing_job j))).
  rewrite Ha, !filter_twice. f_equal; apply filter_ext; intros j;
    unfold is_active, is_processing_job, is_pending_job.
  - destruct (Engine.status j =? "processing")%string,
             (Engine.status j =? "pending")%string; reflexivity.
  - destruct (String.eqb_spec (Engine.status j) "processing") as [->|];
      [reflexivity|].
    destruct (Engine.status j =? "pending")%string; reflexivity.
Qed.

(** *** When the jobs page compares sizes *)



(** *** [transcode], when the preset is known *)

(** X17: with the media item found, the preset among the configured ones
    and the engine accepting, [transcode] calls [create_job] and then
    [start_transcode], once each, the latter with the job the former
    returned and the configured transcode path, and flashes that the job
    started, once.  It then redirects to the media page of a movie and to
    the show page of another item that has a show identifier; for an item
    that is not a movie and has no show identifier the calls and the flash
    are made and [url_for] raises [BuildError]. *)
Theorem transcode_starts_job :
  forall (E : Type) get_media create_job start_transcode config_file
         (media_id : string) (form : list (string * string)) (w : world E)
         (preset_name : string) (media_item : MediaItem) (cfg : Cfg.Config)
         (j : Job) (e1 e2 : E),
    form_get form "preset_name" = Ok preset_name ->
    get_media media_id = Some media_item ->
    Cfg.load_config config_file = Ok cfg ->
    py_in preset_name (Cfg.presets cfg) = Ok true ->
    create_job media_item preset_name (engine w) = (Ok j, e1) ->
    start_transcode j media_item preset_name (Cfg.transcode_path cfg) e1
    = (Ok tt, e2) ->
    transcode get_media create_job start_transcode config_file media_id form w
    = (if (type media_item =? "movie")%string
       then Ok (Redirect "ui.media_detail" [("media_id", Some media_id)])
       else match show_id media_item with
            | Some sid => Ok (Redirect "ui.show_detail" [("show_id", Some sid)])
            | None => Raise BuildError
            end,
       mkWorld
         (flashed w ++ [("Transcoding job started with preset: " ++ preset_name,
                         "message")])
         ((called w ++ [CreateJob media_item preset_name])
            ++ [StartTranscode j media_item preset_name (Cfg.transcode_path cfg)])
         e2).
Proof.
  intros E get_media create_job start_transcode config_file media_id form w
         preset_name media_item cfg j e1 e2 Hform Hmedia Hload Hin Hcreate Hstart.
  unfold transcode. UiFacts.run_route.
  rewrite Hform, Hmedia, Hload. simpl. rewrite Hin. simpl.
  rewrite Hcreate. simpl. rewrite Hstart. simpl.
  unfold back_to_media, redirect_show_detail.
  destruct (type media_item =? "movie")%string; [reflexivity|].
  destruct (show_id media_item); reflexivity.
Qed.

Lemma transcode_starts_job_witness :
  let episode := mkMedia "/media/e1.mkv" "episode" "Pilot" (Some "s1") in
  let j := Engine.mkJob "j1" "e1" "low" "pending" None None in
  let create : MediaItem -> string -> nat -> result Job * nat :=
    fun _ _ n => (Ok j, S n) in
  let start : Job -> MediaItem -> string -> pyval -> nat -> result unit * nat :=
    fun _ _ _ _ n => (Ok tt, S n) in
  transcode (fun _ => Some episode) create start Cfg.FileAbsent
            "e1" [("preset_name", "low")] (mkWorld [] [] 0%nat)
  = (Ok (Redirect "ui.show_detail" [("show_id", Some "s1")]),
     mkWorld [("Transcoding job started with preset: low", "message")]
             [CreateJob episode "low";
              StartTranscode j episode "low" (PyStr "/transcodes")]
             2%nat).
Proof.
  intros episode j create start.
  apply (transcode_starts_job nat (fun _ => Some episode) create start
           Cfg.FileAbsent "e1" [("preset_name", "low")] (mkWorld [] [] 0%nat)
           "low" episode _ j 1%nat 2%nat eq_refl eq_refl eq_refl eq_refl eq_refl
           eq_refl).
Defined.

(** X18: a [transcode] request that ends in an exception has flashed
    nothing, with one exception: for a media item that is not a movie and
    has no show identifier the message is flashed and [url_for] then raises
    [BuildError].  When it is [create_job] that raises, the exception is the
    request's and [start_transcode] is not called. *)
Theorem transcode_aborted :
  forall (E : Type) get_media create_job start_transcode config_file
         (media_id : string) (form : list (string * string)) (w : world E),
    (forall e w',
        transcode get_media create_job start_transcode config_file media_id form w
        = (Raise e, w') ->
        flashed w' = flashed w \/
        (e = BuildError /\
         (exists message,
             flashed w' = (flashed w ++ [(message, "message")])%list) /\
         (exists media_item,
             get_media media_id = Some media_item /\
             type media_item <> "movie" /\
             show_id media_item = None))) /\
    (forall preset_name media_item cfg e e1,
        form_get form "preset_name" = Ok preset_name ->
        get_media media_id = Some media_item ->
        Cfg.load_config config_file = Ok cfg ->
        py_in preset_name (Cfg.presets cfg) = Ok true ->
        create_job media_item preset_name (engine w) = (Raise e, e1) ->
        transcode get_media create_job start_transcode config_file media_id form w
        = (Raise e,
           mkWorld (flashed w) (called w ++ [CreateJob media_item preset_name]) e1)).
Proof.
  intros E get_media create_job start_transcode config_file media_id form w.
  split.
  - intros e w'. unfold transcode. UiFacts.run_route.
    destruct (form_get form "preset_name") as [preset_name|e0]; simpl;
      [|intros [= <- <-]; now left].
    destruct (get_media media_id) as [media_item|] eqn:Hmedia; simpl;
      [|discriminate].
    assert (Hback : forall fl cs (en : E),
               (back_to_media media_id media_item, mkWorld fl cs en)
               = (Raise e, w') ->
               e = BuildError /\ flashed w' = fl /\
               type media_item <> "movie" /\ show_id media_item = None).
    { intros fl cs en. unfold back_to_media, redirect_show_detail.
      destruct (String.eqb_spec (type media_item) "movie") as [|Hm];
        [discriminate|].
      destruct (show_id media_item); [discriminate|].
      intros [= <- <-]. auto. }
    destruct (Cfg.load_config config_file) as [cfg|e0]; simpl;
      [|intros [= <- <-]; now left].
    destruct (py_in preset_name (Cfg.presets cfg)) as [[|]|e0]; simpl;
      [| |intros [= <- <-]; now left].
    + destruct (create_job media_item preset_name (engine w)) as [[j|e0] e1];
        simpl; [|intros [= <- <-]; now left].
      destruct (start_transcode j media_item preset_name (Cfg.transcode_path cfg) e1)
        as [[u|e0] e2]; simpl; [|intros [= <- <-]; now left].
      intros H. destruct (Hback _ _ _ H) as (-> & Hfl & Hm & Hs).
      right. split; [reflexivity|]. split; eauto.
    + intros H. destruct (Hback _ _ _ H) as (-> & Hfl & Hm & Hs).
      right. split; [reflexivity|]. split; eauto.
  - intros preset_name media_item cfg e e1 Hform Hmedia Hload Hin Hcreate.
    unfold transcode. UiFacts.run_route.
    rewrite Hform, Hmedia, Hload. simpl. rewrite Hin. simpl.
    rewrite Hcreate. reflexivity.
Qed.

Lemma transcode_aborted_witness :
  let film := mkMedia "/media/film.mkv" "movie" "Film" None in
  let create : MediaItem -> string -> unit -> result Job * unit :=
    fun _ _ e => (Raise KeyError, e) in
  let start : Job -> MediaItem -> string -> pyval -> unit -> result unit * unit :=
    fun _ _ _ _ e => (Ok tt, e) in
  transcode (fun _ => Some film) create start Cfg.FileAbsent
            "m1" [("preset_name", "low")] (mkWorld [] [] tt)
  = (Raise KeyError, mkWorld [] [CreateJob film "low"] tt) /\
  flashed (mkWorld (E:=unit) [] [CreateJob film "low"] tt) = [].
Proof.
  intros film create start.
  destruct (transcode_aborted unit (fun _ => Some film) create start
              Cfg.FileAbsent "m1" [("preset_name", "low")] (mkWorld [] [] tt))
    as [Hflash Hcreate].
  assert (Hrun : transcode (fun _ => Some film) create start Cfg.FileAbsent
                   "m1" [("preset_name", "low")] (mkWorld [] [] tt)
                 = (Raise KeyError, mkWorld [] [CreateJob film "low"] tt)).
  { apply (Hcreate "low" film _ KeyError tt eq_refl eq_refl eq_refl eq_refl
             eq_refl). }
  split; [exact Hrun|].
  destruct (Hflash _ _ Hrun) as [H|[H _]]; [exact H|discriminate H].
Defined.

(** *** The completed page, record by record *)

Lemma completed_loop_rows (exists_ : string -> bool) (getsize : string -> option Z)
      (ts : list transcode_record) (rows : list (transcode_record * size_text)) :
  completed_loop exists_ getsize ts = Ok rows ->
  map fst rows = ts /\
  Forall (fun row => size_comparison exists_ getsize (fst row) = Ok (snd row)) rows.
Proof.
  revert rows. induction ts as [|t ts IH]; simpl; intros rows.
  - intros [= <-]. split; [reflexivity|constructor].
  - destruct (size_comparison exists_ getsize t) as [c|e] eqn:Hc; simpl;
      [|discriminate].
    destruct (completed_loop exists_ getsize ts) as [rest|e]; simpl;
      [|discriminate].
    intros [= <-]. destruct (IH rest eq_refl) as [Hm Hf]. simpl.
    split; [now rewrite Hm|]. constructor; assumption.
Qed.

Lemma completed_loop_fails (exists_ : string -> bool) (getsize : string -> option Z)
      (ts : list transcode_record) (t : transcode_record) (e : exn) :
  In t ts ->
  size_comparison exists_ getsize t = Raise e ->
  exists e', completed_loop exists_ getsize ts = Raise e'.
Proof.
  induction ts as [|t0 ts IH]; simpl; [contradiction|].
  intros [->|Hin] Ht.
  - rewrite Ht. simpl. eauto.
  - destruct (size_comparison exists_ getsize t0); simpl; [|eauto].
    destruct (IH Hin Ht) as [e' ->]. simpl. eauto.
Qed.

(** X19: when the completed page is produced it has one row per record of
    [get_completed_transcodes], in the same order, each with the size text
    of its record; and one record whose size text cannot be worked out (its
    original exists but a size cannot be read, or it has no ["file_path"])
    fails the whole page. *)
Theorem completed_rows :
  forall get_completed_transcodes config_file
         (exists_ : string -> bool) (getsize : string -> option Z),
    (forall rows,
        completed get_completed_transcodes config_file exists_ getsize
        = Ok (CompletedPage rows) ->
        exists cfg,
          Cfg.load_config config_file = Ok cfg /\
          map fst rows = get_completed_transcodes (Cfg.transcode_path cfg) /\
          Forall (fun row => size_comparison exists_ getsize (fst row)
                             = Ok (snd row)) rows) /\
    (forall cfg t e,
        Cfg.load_config config_file = Ok cfg ->
        In t (get_completed_transcodes (Cfg.transcode_path cfg)) ->
        size_comparison exists_ getsize t = Raise e ->
        exists e',
          completed get_completed_transcodes config_file exists_ getsize
          = Raise e').
Proof.
  intros get_completed_transcodes config_file exists_ getsize.
  unfold completed. split.
  - intros rows.
    destruct (Cfg.load_config config_file) as [cfg|e]; simpl; [|discriminate].
    destruct (completed_loop exists_ getsize
                (get_completed_transcodes (Cfg.transcode_path cfg)))
      as [rows'|e] eqn:Hloop; simpl; [|discriminate].
    intros [= <-]. exists cfg. split; [reflexivity|].
    now apply completed_loop_rows.
  - intros cfg t e -> Hin Ht. simpl.
    destruct (completed_loop_fails _ _ _ _ _ Hin Ht) as [e' ->]. simpl. eauto.
Qed.

Lemma completed_rows_witness :
  let records : pyval -> list transcode_record :=
    fun _ => [[("output_size", "1.5 GB")];
              [("original_path", "/media/film.mkv")]] in
  let on_disk : string -> bool := fun _ => true in
  let getsize : string -> option Z := fun _ => Some 2048 in
  exists e',
    completed records Cfg.FileAbsent on_disk getsize = Raise e'.
Proof.
  intros records on_disk getsize.
  apply (proj2 (completed_rows records Cfg.FileAbsent on_disk getsize)
               _ [("original_path", "/media/film.mkv")] KeyError eq_refl).
  - simpl. auto.
  - reflexivity.
Defined.

(** *** [download_file] without symbolic links *)

Lemma path_join_startswith (root filename : string) :
  startswith filename "/" = false ->
  startswith (path_join root filename) root = true.
Proof.
  intros H. unfold path_join. rewrite H.
  destruct ((root =? "")%string || endswith_slash root);
    apply PathFacts.startswith_app.
Qed.

(** X20: where real paths are the paths themselves (no symbolic links, an
    absolute root) and the filename does not begin with a slash, the
    containment check of [download_file] never refuses: the file is sent as
    soon as it exists and is a regular file, and the only refusal is "File
    not found". *)
Theorem download_file_no_links :
  forall (E : Type) apply_output_path_mapping config_file
         (exists_ isfile : string -> bool) (filename : string) (w : world E)
         (cfg : Cfg.Config) (root : string),
    Cfg.load_config config_file = Ok cfg ->
    apply_output_path_mapping (Cfg.transcode_path cfg) = Ok (PyStr root) ->
    startswith filename "/" = false ->
    let file_path := path_join root filename in
    download_file apply_output_path_mapping config_file exists_ isfile
                  (fun p => p) filename w
    = if exists_ file_path && isfile file_path
      then (Ok (SendFile file_path true), w)
      else (Ok (Redirect "ui.completed" []),
            mkWorld (flashed w ++ [("File not found", "message")])
                    (called w) (engine w)).
Proof.
  intros E mapping config_file exists_ isfile filename w cfg root
         Hload Hmap Hrel file_path.
  unfold download_file. UiFacts.run_route. rewrite Hload. simpl.
  rewrite Hmap. simpl. subst file_path.
  rewrite (path_join_startswith root filename Hrel).
  destruct (exists_ (path_join root filename)); simpl; [|reflexivity].
  destruct (isfile (path_join root filename)); reflexivity.
Qed.

Lemma download_file_no_links_witness :
  let mapping : pyval -> result pyval := fun v => Ok v in
  let on_disk : string -> bool := fun _ => true in
  download_file mapping Cfg.FileAbsent on_disk on_disk (fun p => p)
                "film.mkv" (mkWorld [] [] tt)
  = (Ok (SendFile "/transcodes/film.mkv" true), mkWorld [] [] tt).
Proof.
  intros mapping on_disk.
  apply (download_file_no_links unit mapping Cfg.FileAbsent on_disk on_disk
           "film.mkv" (mkWorld [] [] tt) _ "/transcodes" eq_refl eq_refl eq_refl).
Defined.

(** *** [download_episode] *)

Lemma basename_no_slash (p : string) : has_slash (basename p) = false.
Proof.
  induction p as [|c p IH]; [reflexivity|].
  cbn [basename]. destruct (has_slash (String c p)) eqn:H; assumption.
Qed.

Lemma basename_id (p : string) : has_slash p = false -> basename p = p.
Proof. destruct p as [|c p]; [reflexivity|]. cbn [basename]. now intros ->. Qed.

Lemma endswith_slash_cons (c : ascii) (s : string) :
  endswith_slash s = true -> endswith_slash (String c s) = true.
Proof. destruct s; [discriminate|]. auto. Qed.

(** A path is its directory part, empty or ending in a slash, followed by
    its base name. *)
Lemma basename_split (p : string) :
  exists dir, p = dir ++ basename p /\ (dir = "" \/ endswith_slash dir = true).
Proof.
  induction p as [|c p (dir & Hp & Hdir)]; [exists ""; auto|].
  cbn [basename]. destruct (has_slash (String c p)) eqn:H.
  - exists (String c dir). split; [simpl; now f_equal|]. right.
    destruct Hdir as [->|Hdir]; [|now apply endswith_slash_cons].
    simpl in Hp. simpl in H.
    rewrite Hp, basename_no_slash, orb_false_r in H. exact H.
  - exists "". auto.
Qed.

(** X21: [download_episode] sends a file only for a media item of the
    catalog whose path is not empty, exists and is a regular file; it sends
    that path as an attachment under its base name, which has no slash in it
    and ends the path.  For an item whose file fails a check it flashes
    "Episode file not found" and redirects to the show page when the item
    has a show, to the index page otherwise. *)
Theorem download_episode_guarded :
  forall (E : Type) get_media (exists_ isfile : string -> bool)
         (media_id : string) (w : world E),
    (forall sent att name w',
        download_episode get_media exists_ isfile media_id w
        = (Ok (SendNamed sent att name), w') ->
        exists media_item,
          get_media media_id = Some media_item /\
          sent = path media_item /\ sent <> "" /\
          exists_ sent = true /\ isfile sent = true /\ att = true /\
          name = basename sent /\ has_slash name = false /\
          (exists dir, sent = dir ++ name) /\
          w' = w) /\
    (forall media_item,
        get_media media_id = Some media_item ->
        (path media_item =? "")%string || negb (exists_ (path media_item))
        || negb (isfile (path media_item)) = true ->
        download_episode get_media exists_ isfile media_id w
        = (Ok (Reply (if nonempty (show_id media_item)
                      then Redirect "ui.show_detail" [("show_id", show_id media_item)]
                      else Redirect "ui.index" [])),
           mkWorld (flashed w ++ [("Episode file not found", "message")])
                   (called w) (engine w))).
Proof.
  intros E get_media exists_ isfile media_id w. unfold download_episode. split.
  - intros sent att name w'. UiFacts.run_route.
    destruct (get_media media_id) as [media_item|]; [|discriminate].
    destruct (String.eqb_spec (path media_item) "") as [|Hne]; simpl.
    { destruct (nonempty (show_id media_item)); discriminate. }
    destruct (exists_ (path media_item)) eqn:Hex; simpl.
    2:{ destruct (nonempty (show_id media_item)); discriminate. }
    destruct (isfile (path media_item)) eqn:Hfile; simpl.
    2:{ destruct (nonempty (show_id media_item)); discriminate. }
    intros [= <- <- <- <-]. exists media_item.
    destruct (basename_split (path media_item)) as (dir & Hsplit & _).
    repeat split; auto using basename_no_slash. exists dir. exact Hsplit.
  - intros media_item -> Hbad. UiFacts.run_route. rewrite Hbad.
    destruct (nonempty (show_id media_item)); reflexivity.
Qed.

Lemma download_episode_guarded_witness :
  let episode := mkMedia "" "episode" "Pilot" (Some "s1") in
  download_episode (fun _ => Some episode) (fun _ => true) (fun _ => true)
                   "m1" (mkWorld [] [] tt)
  = (Ok (Reply (Redirect "ui.show_detail" [("show_id", Some "s1")])),
     mkWorld [("Episode file not found", "message")] [] tt).
Proof.
  intros episode.
  apply (proj2 (download_episode_guarded unit (fun _ => Some episode)
                  (fun _ => true) (fun _ => true) "m1" (mkWorld [] [] tt))
               episode eq_refl eq_refl).
Defined.

(** *** [media_detail] *)

(** X22: [media_detail] renders the media page only for an item that is
    not an episode of a show, with the presets [load_config] returned, and
    without flashing; and the page [transcode] redirects to for a movie is
    one that is rendered, not redirected again. *)
Theorem media_detail_renders :
  forall (E : Type) get_media config_file (media_id : string) (w : world E),
    (forall media profiles w',
        media_detail get_media config_file media_id w
        = (Ok (MediaDetailPage media profiles), w') ->
        get_media media_id = Some media /\
        (type media =? "episode")%string && nonempty (show_id media) = false /\
        (exists cfg,
            Cfg.load_config config_file = Ok cfg /\ profiles = Cfg.presets cfg) /\
        w' = w) /\
    (forall media cfg,
        get_media media_id = Some media ->
        Cfg.load_config config_file = Ok cfg ->
        type media = "movie" ->
        back_to_media media_id media
        = Ok (Redirect "ui.media_detail" [("media_id", Some media_id)]) /\
        media_detail get_media config_file media_id w
        = (Ok (MediaDetailPage media (Cfg.presets cfg)), w)).
Proof.
  intros E get_media config_file media_id w. unfold media_detail. split.
  - intros media profiles w'. UiFacts.run_route.
    destruct (get_media media_id) as [media_item|]; [|discriminate].
    destruct (Cfg.load_config config_file) as [cfg|e]; simpl; [|discriminate].
    destruct ((type media_item =? "episode")%string
              && nonempty (show_id media_item)) eqn:Hep; [discriminate|].
    intros [= <- <- <-]. repeat split; eauto.
  - intros media cfg -> Hload Hmovie. unfold back_to_media.
    UiFacts.run_route. rewrite Hload, Hmovie. simpl. auto.
Qed.

Lemma media_detail_renders_witness :
  let film := mkMedia "/media/film.mkv" "movie" "Film" None in
  exists cfg,
    Cfg.load_config Cfg.FileAbsent = Ok cfg /\
    media_detail (fun _ => Some film) Cfg.FileAbsent "m1" (mkWorld [] [] tt)
    = (Ok (MediaDetailPage film (Cfg.presets cfg)), mkWorld [] [] tt).
Proof.
  intros film. eexists. split; [reflexivity|].
  apply (proj2 (media_detail_renders unit (fun _ => Some film) Cfg.FileAbsent
                  "m1" (mkWorld [] [] tt)) film _ eq_refl eq_refl eq_refl).
Defined.

(** *** [show_detail] *)

Lemma in_set_In (x : string) (s : list string) : in_set x s = true <-> In x s.
Proof.
  unfold in_set. rewrite existsb_exists. split.
  - intros (y & Hy & Heq). apply String.eqb_eq in Heq. now subst.
  - intros H. exists x. split; [assumption|apply String.eqb_refl].
Qed.

Lemma set_add_In (x e : string) (s : list string) :
  In e (set_add x s) <-> e = x \/ In e s.
Proof.
  unfold set_add. destruct (in_set x s) eqn:H.
  - apply in_set_In in H. split; [auto|]. intros [->|]; assumption.
  - rewrite in_app_iff. simpl. split; intros [|]; auto.
    + destruct H0 as [->|[]]. auto.
Qed.

Lemma set_add_NoDup (x : string) (s : list string) :
  NoDup s -> NoDup (set_add x s).
Proof.
  unfold set_add. intros Hs. destruct (in_set x s) eqn:H; [assumption|].
  assert (Hnot : ~ In x s).
  { intros Hin. apply in_set_In in Hin. congruence. }
  clear H. induction Hs as [|y s Hy Hs IH]; simpl.
  - constructor; [auto|constructor].
  - constructor.
    + rewrite in_app_iff. simpl. intros [Hin|[->|[]]]; [auto|].
      apply Hnot. now left.
    + apply IH. intros Hin. apply Hnot. now right.
Qed.

Section Counting.

Variable get_media : string -> option MediaItem.

(** What the inner loop makes of a tally over a list of episodes. *)
Lemma count_episode_fold (l : list string) (t : tally) :
  let t' := fold_left (count_episode get_media) l t in
  episode_count t' = (episode_count t + length l)%nat /\
  (length (episode_ids t') <= length (episode_ids t) + length l)%nat /\
  (NoDup (valid_episode_ids t) -> NoDup (valid_episode_ids t')) /\
  (forall e, In e (valid_episode_ids t')
             <-> In e (valid_episode_ids t) \/ (In e l /\ get_media e <> None)).
Proof.
  revert t. induction l as [|x l IH]; intros t; simpl.
  - repeat split; auto; try lia. intros [?|[[] _]]; assumption.
  - destruct (IH (count_episode get_media t x)) as (Hc & Hi & Hn & Hv).
    unfold count_episode in *.
    destruct (get_media x) as [m|] eqn:Hx; simpl in *.
    + split; [lia|]. split; [rewrite length_app in Hi; simpl in Hi; lia|].
      split; [auto using set_add_NoDup|].
      intros e. rewrite Hv, set_add_In. split.
      * intros [[->|H]|[H1 H2]]; auto. right. split; [auto|congruence].
      * intros [H|[[<-|H1] H2]]; auto.
    + split; [lia|]. split; [lia|]. split; [assumption|].
      intros e. rewrite Hv. split.
      * intros [H|[H1 H2]]; auto.
      * intros [H|[[<-|H1] H2]]; auto. congruence.
Qed.

Lemma fold_seasons (ss : list (list string)) (t : tally) :
  fold_left (fun t season => fold_left (count_episode get_media) season t) ss t
  = fold_left (count_episode get_media) (concat ss) t.
Proof.
  revert t. induction ss as [|s ss IH]; intros t; simpl; [reflexivity|].
  now rewrite fold_left_app, IH.
Qed.

End Counting.

(** X23: the show page counts every episode of every season, and its set
    of valid episode identifiers holds, once each, exactly the episodes the
    catalog has a media item for. *)
Theorem show_detail_counts :
  forall (E : Type) get_media get_show (seasons : Show -> list (list string))
         config_file (show_id : string) (w w' : world E)
         (show : Show) (profiles : pyval) (n : nat) (valid : list string),
    show_detail get_media get_show seasons config_file show_id w
    = (Ok (ShowDetailPage show profiles n valid), w') ->
    get_show show_id = Some show /\
    n = length (concat (seasons show)) /\
    NoDup valid /\
    (forall e, In e valid
               <-> In e (concat (seasons show)) /\ get_media e <> None) /\
    w' = w.
Proof.
  intros E get_media get_show seasons config_file show_id w w' show profiles
         n valid. unfold show_detail. UiFacts.run_route.
  destruct (get_show show_id) as [sh|]; [|discriminate].
  destruct (Cfg.load_config config_file) as [cfg|e]; simpl; [|discriminate].
  intros [= <- <- <- <- <-]. unfold count_episodes. rewrite fold_seasons.
  destruct (count_episode_fold get_media (concat (seasons sh)) (mkTally 0 [] []))
    as (Hc & _ & Hn & Hv).
  simpl in *. repeat split; auto.
  - apply Hn. constructor.
  - apply Hv in H. destruct H as [[]|[H _]]. exact H.
  - apply Hv in H. destruct H as [[]|[_ H]]. exact H.
  - intros [H1 H2]. apply Hv. auto.
Qed.

Lemma show_detail_counts_witness :
  let catalog : string -> option MediaItem :=
    fun i => if (i =? "e2")%string then None
             else Some (mkMedia "/media/e.mkv" "episode" "Episode" (Some "s1")) in
  let seasons : Show -> list (list string) :=
    fun _ => [["e1"; "e2"]; ["e3"; "e1"]] in
  exists profiles valid,
    show_detail catalog (fun _ => Some (mkShow "Show")) seasons Cfg.FileAbsent
                "s1" (mkWorld [] [] tt)
    = (Ok (ShowDetailPage (mkShow "Show") profiles 4 valid), mkWorld [] [] tt) /\
    NoDup valid /\
    (In "e1" valid /\ ~ In "e2" valid).
Proof.
  intros catalog seasons. do 2 eexists. split; [reflexivity|].
  destruct (show_detail_counts unit catalog (fun _ => Some (mkShow "Show"))
              seasons Cfg.FileAbsent "s1" (mkWorld [] [] tt) _ _ _ _ _ eq_refl)
    as (_ & _ & Hn & Hv & _).
  split; [exact Hn|]. split.
  - apply Hv. split; [simpl; auto|discriminate].
  - intros H. apply Hv in H. destruct H as [_ H]. now apply H.
Defined.

End UiMoreFacts.

(* ===================================================================== *)
(** ** [load_config] with its path *)
(* ===================================================================== *)

Module CfgPathFacts.

Import Cfg CfgSave CfgPath.

(** Once the directory is there, [load_config] is what the file gives. *)
Lemma load_config_ready (d : disk) (environ config_path : option string) :
  directory_ready d (dirname (resolve environ config_path)) = true ->
  load_config d environ config_path
  = if negb (os_path_exists d (resolve environ config_path))
    then Cfg.load_config FileAbsent
    else doc <- read_json d (resolve environ config_path) ;;
         Cfg.load_config (FileJson doc).
Proof.
  unfold load_config, directory_ready.
  destruct (os_path_exists d (dirname (resolve environ config_path))); simpl;
    [reflexivity|].
  destruct (os_makedirs d (dirname (resolve environ config_path))) as [[]|e];
    [reflexivity|discriminate].
Qed.


Lemma dirname_no_slash (p : string) : UiMore.has_slash p = false -> dirname p = "".
Proof.
  intros H. unfold dirname.
  assert (Hh : head p = "") by (destruct p; [reflexivity|]; cbn [head]; now rewrite H).
  now rewrite Hh.
Qed.




(** X2: with the directory of the config path in place and the file
    holding a JSON object, [load_config] returns exactly when the
    [media_paths] migration has nothing to raise on: [media_path] is truthy,
    or [media_paths] is missing or falsy, or it is a list or a string.
    Otherwise it raises [TypeError], or [KeyError] for an object. *)
Theorem load_config_path_returns_iff :
  forall (d : disk) (environ config_path : option string) (doc : pydict),
    directory_ready d (dirname (resolve environ config_path)) = true ->
    os_path_exists d (resolve environ config_path) = true ->
    read_json d (resolve environ config_path) = Ok (PyDict doc) ->
    ((exists c, load_config d environ config_path = Ok c)
     <-> migration_succeeds doc = true) /\
    (migration_succeeds doc = false ->
     load_config d environ config_path = Raise TypeError \/
     load_config d environ config_path = Raise KeyError).
Proof.
  intros d environ config_path doc Hdir Hex Hread.
  rewrite (load_config_ready _ _ _ Hdir), Hex, Hread. simpl.
  apply CfgMoreFacts.load_config_returns_iff.
Qed.

Lemma load_config_path_returns_iff_witness :
  let d := mkDisk (fun _ => true) (fun _ => Raise OSError)
                  (fun _ => Ok (PyDict [("media_paths", PyBool true)])) in
  load_config d None None = Raise TypeError \/
  load_config d None None = Raise KeyError.
Proof.
  intros d.
  apply (proj2 (load_config_path_returns_iff d None None
                  [("media_paths", PyBool true)] eq_refl eq_refl eq_refl)).
  reflexivity.
Defined.

(** X6: when the directory of the config path exists or can be created and
    the file holds what [save_config] wrote for a [Config], [load_config]
    returns, whatever JSON values the [Config] held, and the reloaded
    [Config] has the same [transcode_path], [ffmpeg_path], [ffprobe_path],
    [max_concurrent_jobs], [hw_accel], [hw_device], [hw_capabilities] and
    [log_level]; [path_mappings] and [enabled_libraries] come back too, with
    [{}] for [None]. *)
Theorem save_then_load_path :
  forall (d : disk) (environ config_path : option string) (c : Config),
    directory_ready d (dirname (resolve environ config_path)) = true ->
    os_path_exists d (resolve environ config_path) = true ->
    read_json d (resolve environ config_path) = Ok (PyDict (save_config c)) ->
    exists c',
      load_config d environ config_path = Ok c' /\
      transcode_path c' = transcode_path c /\
      ffmpeg_path c' = ffmpeg_path c /\
      ffprobe_path c' = ffprobe_path c /\
      max_concurrent_jobs c' = max_concurrent_jobs c /\
      hw_accel c' = hw_accel c /\
      hw_device c' = hw_device c /\
      hw_capabilities c' = hw_capabilities c /\
      log_level c' = log_level c /\
      path_mappings c' = none_to_empty (path_mappings c) /\
      enabled_libraries c' = none_to_empty (enabled_libraries c).
Proof.
  intros d environ config_path c Hdir Hex Hread.
  rewrite (load_config_ready _ _ _ Hdir), Hex, Hread. simpl.
  apply CfgMoreFacts.save_then_load.
Qed.

Lemma save_then_load_path_witness :
  let c := mkConfig PyNone (PyStr "/out") PyNone PyNone PyNone PyNone PyNone
             PyNone PyNone PyNone (PyInt 3) PyNone PyNone PyNone PyNone
             PyNone in
  let d := mkDisk (fun _ => true) (fun _ => Raise OSError)
                  (fun _ => Ok (PyDict (save_config c))) in
  exists c',
    load_config d (Some "/etc/squishy.json") None = Ok c' /\
    transcode_path c' = PyStr "/out" /\
    max_concurrent_jobs c' = PyInt 3.
Proof.
  intros c d.
  destruct (save_then_load_path d (Some "/etc/squishy.json") None c
              eq_refl eq_refl eq_refl)
    as (c' & Hload & Ht & _ & _ & Hm & _).
  exists c'. repeat split; assumption.
Defined.

(** X24: a config path without a directory part cannot be loaded: its
    directory is the empty path, which does not exist and cannot be made, so
    [load_config] raises [FileNotFoundError] (an [OSError]) whether or not
    the file is there and whatever it holds. *)
Theorem load_config_bare_filename :
  forall (d : disk) (environ config_path : option string),
    UiMore.has_slash (resolve environ config_path) = false ->
    load_config d environ config_path = Raise OSError.
Proof.
  intros d environ config_path H. unfold load_config.
  rewrite (dirname_no_slash _ H). reflexivity.
Qed.

Lemma load_config_bare_filename_witness :
  load_config (mkDisk (fun _ => true) (fun _ => Ok tt) (fun _ => Ok (PyDict [])))
              None (Some "config.json")
  = Raise OSError.
Proof. apply load_config_bare_filename. reflexivity. Defined.

End CfgPathFacts.
